(** * GraphQl.py: the schema-typed tabular store

    A shallow embedding of [DynamicTable], [Database], [convert_values] and
    the row mutations of [src/GraphQl.py], followed by the properties of the
    specification that concern them.

    Modelling conventions.
    - A Python [dict] used as a map (a row, [Database.tables]) is a [gmap]
      with string keys; a Python [list] is a [list]; a Python [set] whose
      only use is the membership test is a [list].
    - Python values are the closed universe [value]: [str], [int], [bool]
      and [None].  A [str] is a [string], character by character; the
      program looks only at ASCII characters (the letters of ["true"], the
      digits, signs and white space of an integer text).
    - What the built-ins [int] and [str] do beyond the program's reach is
      a parameter, [Interpreter]: the limit on the digits of an integer
      text, and the value of a text with a character outside ASCII.
    - A method of a mutable object is a function from the object's state to
      an [outcome] and the state the call leaves behind, so that a raise
      after a partial mutation is visible.
    - Every table owns its [column_info] list and its row dicts: the program
      builds a fresh list for each table and a fresh dict for each row. *)

From Stdlib Require Import ZArith Ascii.
From stdpp Require Import gmap strings list fin_maps.

Local Open Scope string_scope.
Local Open Scope list_scope.
Local Open Scope Z_scope.

(** ** Python values, classes and exceptions *)

Inductive pyclass := PyStr | PyInt | PyBool | PyNoneType.

Inductive value :=
  | VStr (s : string)
  | VInt (n : Z)
  | VBool (b : bool)
  | VNone.

#[global] Instance pyclass_eq_dec : EqDecision pyclass.
Proof. solve_decision. Defined.

#[global] Instance value_eq_dec : EqDecision value.
Proof. solve_decision. Defined.

(** [type(value)] *)
Definition type_of (v : value) : pyclass :=
  match v with
  | VStr _ => PyStr
  | VInt _ => PyInt
  | VBool _ => PyBool
  | VNone => PyNoneType
  end.

(** [isinstance(value, column_type)]: [bool] is a subclass of [int]. *)
Definition isinstance (v : value) (c : pyclass) : bool :=
  match v, c with
  | VStr _, PyStr => true
  | VInt _, PyInt => true
  | VBool _, PyBool => true
  | VBool _, PyInt => true
  | VNone, PyNoneType => true
  | _, _ => false
  end.

(** [a == b] on values: [True == 1] and [False == 0]; [None] equals only
    itself; a text never equals a number. *)
Definition py_eq (a b : value) : bool :=
  match a, b with
  | VStr s, VStr t => bool_decide (s = t)
  | VInt m, VInt n => bool_decide (m = n)
  | VBool x, VBool y => bool_decide (x = y)
  | VInt m, VBool y => bool_decide (m = Z.b2z y)
  | VBool x, VInt n => bool_decide (Z.b2z x = n)
  | VNone, VNone => true
  | _, _ => false
  end.

(** Equality of two tuples: same length, equal component by component. *)
Fixpoint tuple_eq (s t : list value) : bool :=
  match s, t with
  | [], [] => true
  | a :: s', b :: t' => py_eq a b && tuple_eq s' t'
  | _, _ => false
  end.

(** [key in seen] for a set of tuples. *)
Definition tuple_in (k : list value) (seen : list (list value)) : bool :=
  existsb (tuple_eq k) seen.

(** The texts of the exceptions the program raises. *)
Inductive message :=
  | ColumnExists (column_name : string)
  | ColumnMissing (column_name : string)
  | NotInList (x : string)
  | ArityMsg
  | InvalidType (column_name : string) (expected actual : pyclass)
  | RowIndexOutOfBounds
  | ListIndexOutOfRange
  | TableExists (table_name : string)
  | TableMissing (table_name : string)
  | InvalidLiteral (text : string)
  | DigitLimit (limit digits : nat)
  | DigitLimitStr (limit : nat).

Inductive exn :=
  | ValueError (m : message)
  | IndexError (m : message)
  | KeyError (k : string).

Inductive outcome :=
  | Returned
  | Raised (e : exn).

(** ** Python lists indexed by a signed integer *)

(** The position [l[i]] denotes: a negative index counts from the end. *)
Definition py_index (len : nat) (i : Z) : option nat :=
  if bool_decide (0 ≤ i < Z.of_nat len) then Some (Z.to_nat i)
  else if bool_decide (- Z.of_nat len ≤ i < 0) then Some (Z.to_nat (i + Z.of_nat len))
  else None.

(** [del l[i]] *)
Definition list_delitem {A} (l : list A) (i : Z) : exn + list A :=
  match py_index (length l) i with
  | Some k => inr (delete k l)
  | None => inl (IndexError ListIndexOutOfRange)
  end.

(** [l[i] = x] *)
Definition list_setitem {A} (l : list A) (i : Z) (x : A) : exn + list A :=
  match py_index (length l) i with
  | Some k => inr (<[k := x]> l)
  | None => inl (IndexError ListIndexOutOfRange)
  end.

(** ** DynamicTable *)

Record DynamicTable := {
  column_info : list (string * pyclass);
  rows : list (gmap string value)
}.

(** [DynamicTable(column_info)] *)
Definition DynamicTable_init (column_info : list (string * pyclass)) : DynamicTable :=
  {| column_info := column_info; rows := [] |}.

(** [[col[0] for col in self.column_info]] *)
Definition column_names (self : DynamicTable) : list string :=
  (column_info self).*1.

Definition add_column (self : DynamicTable) (column_name : string)
    (column_type : pyclass) : outcome * DynamicTable :=
  if bool_decide (column_name ∈ column_names self) then
    (Raised (ValueError (ColumnExists column_name)), self)
  else
    (Returned,
     {| column_info := column_info self ++ [(column_name, column_type)];
        rows := (λ row, <[column_name := VNone]> row) <$> rows self |}).

(** [for row in rows: del row[column_name]]: the rows as the loop leaves
    them, and the [KeyError] that stopped it, if any. *)
Fixpoint del_key_rows (column_name : string) (rows : list (gmap string value))
    : list (gmap string value) * option exn :=
  match rows with
  | [] => ([], None)
  | row :: rest =>
      match row !! column_name with
      | None => (row :: rest, Some (KeyError column_name))
      | Some _ =>
          let '(rest', e) := del_key_rows column_name rest in
          (delete column_name row :: rest', e)
      end
  end.

(** [names.index(x)] *)
Fixpoint list_index (x : string) (names : list string) : option nat :=
  match names with
  | [] => None
  | y :: names' =>
      if bool_decide (y = x) then Some 0%nat else S <$> list_index x names'
  end.

Definition delete_column (self : DynamicTable) (column_name : string)
    : outcome * DynamicTable :=
  if negb (bool_decide (column_name ∈ column_names self)) then
    (Raised (ValueError (ColumnMissing column_name)), self)
  else
    match list_index column_name (column_names self) with
    | None => (Raised (ValueError (NotInList column_name)), self)
    | Some index =>
        let column_info' := delete index (column_info self) in
        let '(rows', e) := del_key_rows column_name (rows self) in
        (match e with None => Returned | Some x => Raised x end,
         {| column_info := column_info'; rows := rows' |})
    end.

(** The validation loop shared by [add_row] and [update_row]:
    [for i, (column_name, column_type) in enumerate(column_info)],
    started at position [i]. *)
Fixpoint validate (cols : list (string * pyclass)) (i : nat) (values : list value)
    : exn + list value :=
  match cols with
  | [] => inr []
  | (column_name, column_type) :: cols' =>
      match values !! i with
      | None => inl (IndexError ListIndexOutOfRange)
      | Some v =>
          if isinstance v column_type then
            match validate cols' (S i) values with
            | inl e => inl e
            | inr validated => inr (v :: validated)
            end
          else inl (ValueError (InvalidType column_name column_type (type_of v)))
      end
  end.

(** [dict(zip(keys, vals))]: pairs are entered left to right, so a later
    pair overrides an earlier one with the same key. *)
Definition dict_zip (keys : list string) (vals : list value) : gmap string value :=
  foldl (λ d kv, <[kv.1 := kv.2]> d) ∅ (zip keys vals).

Definition add_row (self : DynamicTable) (values : list value)
    : outcome * DynamicTable :=
  if bool_decide (length values ≠ length (column_info self)) then
    (Raised (ValueError ArityMsg), self)
  else
    match validate (column_info self) 0 values with
    | inl e => (Raised e, self)
    | inr validated_values =>
        let row := dict_zip (column_names self) validated_values in
        (Returned,
         {| column_info := column_info self; rows := rows self ++ [row] |})
    end.

Definition update_row (self : DynamicTable) (row_index : Z) (values : list value)
    : outcome * DynamicTable :=
  if bool_decide (row_index < 0) || bool_decide (Z.of_nat (length (rows self)) ≤ row_index) then
    (Raised (IndexError RowIndexOutOfBounds), self)
  else if bool_decide (length values ≠ length (column_info self)) then
    (Raised (ValueError ArityMsg), self)
  else
    match validate (column_info self) 0 values with
    | inl e => (Raised e, self)
    | inr validated_values =>
        match list_setitem (rows self) row_index
                (dict_zip (column_names self) validated_values) with
        | inl e => (Raised e, self)
        | inr rows' => (Returned, {| column_info := column_info self; rows := rows' |})
        end
    end.

(** [tuple(row[column] for column, _ in self.column_info)] *)
Fixpoint key_values (cols : list (string * pyclass)) (row : gmap string value)
    : exn + list value :=
  match cols with
  | [] => inr []
  | (column, _) :: cols' =>
      match row !! column with
      | None => inl (KeyError column)
      | Some v =>
          match key_values cols' row with
          | inl e => inl e
          | inr t => inr (v :: t)
          end
      end
  end.

(** The loop of [remove_duplicates] over the rows still to visit. *)
Fixpoint dedup_loop (cols : list (string * pyclass)) (todo : list (gmap string value))
    (seen_rows : list (list value)) (unique_rows : list (gmap string value))
    : exn + list (gmap string value) :=
  match todo with
  | [] => inr unique_rows
  | row :: rest =>
      match key_values cols row with
      | inl e => inl e
      | inr key =>
          if negb (tuple_in key seen_rows) then
            dedup_loop cols rest (key :: seen_rows) (unique_rows ++ [row])
          else dedup_loop cols rest seen_rows unique_rows
      end
  end.

Definition remove_duplicates (self : DynamicTable) : outcome * DynamicTable :=
  match dedup_loop (column_info self) (rows self) [] [] with
  | inl e => (Raised e, self)
  | inr unique_rows =>
      (Returned, {| column_info := column_info self; rows := unique_rows |})
  end.

(** [del dynamic_table.rows[row_index]], the statement of
    [DeleteRowMutation.mutate] that acts on the table. *)
Definition delete_row (self : DynamicTable) (row_index : Z) : outcome * DynamicTable :=
  match list_delitem (rows self) row_index with
  | inl e => (Raised e, self)
  | inr rows' => (Returned, {| column_info := column_info self; rows := rows' |})
  end.

(** ** Database *)

Record Database := { tables : gmap string DynamicTable }.

Definition Database_init : Database := {| tables := ∅ |}.

Definition add_table (self : Database) (table_name : string)
    (column_info : list (string * pyclass)) : outcome * Database :=
  match tables self !! table_name with
  | Some _ => (Raised (ValueError (TableExists table_name)), self)
  | None =>
      (Returned,
       {| tables := <[table_name := DynamicTable_init column_info]> (tables self) |})
  end.

Definition remove_table (self : Database) (table_name : string) : outcome * Database :=
  match tables self !! table_name with
  | None => (Raised (ValueError (TableMissing table_name)), self)
  | Some _ => (Returned, {| tables := delete table_name (tables self) |})
  end.

(** ** Text to typed value: [convert_values] *)

(** [str.lower] on one ASCII character. *)
Definition lower_char (a : ascii) : ascii :=
  let n := nat_of_ascii a in
  if (65 <=? n)%nat && (n <=? 90)%nat then ascii_of_nat (n + 32) else a.

(** [value.lower()] *)
Fixpoint py_lower (s : string) : string :=
  match s with
  | EmptyString => EmptyString
  | String a s' => String (lower_char a) (py_lower s')
  end.

(** The white space [int()] skips: space, and tab to carriage return. *)
Definition is_space (a : ascii) : bool :=
  let n := nat_of_ascii a in
  (n =? 32)%nat || (9 <=? n)%nat && (n <=? 13)%nat.

Definition digit_of (a : ascii) : option Z :=
  let n := nat_of_ascii a in
  if (48 <=? n)%nat && (n <=? 57)%nat then Some (Z.of_nat n - 48) else None.

Definition is_underscore (a : ascii) : bool := bool_decide (a = "_"%char).

(** The digits of a literal, read left to right with the value so far:
    single underscores may separate digits; reading stops at the first
    other character, which must not follow an underscore. *)
Fixpoint scan_digits (acc : Z) (prev_underscore : bool) (l : list ascii)
    : option (Z * list ascii) :=
  match l with
  | [] => if prev_underscore then None else Some (acc, [])
  | a :: l' =>
      match digit_of a with
      | Some d => scan_digits (10 * acc + d) false l'
      | None =>
          if prev_underscore then None
          else if is_underscore a then scan_digits acc true l'
          else Some (acc, a :: l')
      end
  end.

Fixpoint skip_spaces (l : list ascii) : list ascii :=
  match l with
  | a :: l' => if is_space a then skip_spaces l' else l
  | [] => []
  end.

(** The digits the scan of a literal counts: those of the leading run of
    digits and underscores. *)
Fixpoint count_digits (l : list ascii) : nat :=
  match l with
  | [] => O
  | a :: l' =>
      match digit_of a with
      | Some _ => S (count_digits l')
      | None => if is_underscore a then count_digits l' else O
      end
  end.

(** What the built-ins [int] and [str] take from the interpreter rather
    than from their argument: [sys.get_int_max_str_digits()], which is
    zero for no limit, and the value of [int] on a text with a character
    outside ASCII, which the interpreter's Unicode tables of decimal digits
    and white space decide. *)
Record Interpreter := {
  int_max_str_digits : nat;
  unicode_int : string → message + Z
}.

(** [sys.int_info.str_digits_check_threshold] *)
Definition str_digits_check_threshold : nat := 640.

(** The conversions between [int] and [str] refuse more digits than the
    limit, when there is one; they never refuse 640 digits or fewer. *)
Definition exceeds_limit (py : Interpreter) (digits : nat) : bool :=
  (str_digits_check_threshold <? digits)%nat
  && (0 <? int_max_str_digits py)%nat
  && (int_max_str_digits py <? digits)%nat.

Definition is_ascii_text (text : string) : bool :=
  forallb (λ a, (nat_of_ascii a <? 128)%nat) (String.list_ascii_of_string text).

(** [int(text)] once the leading white space and the sign are read: the
    digits, with single underscores between them, then white space.  The
    digit limit is checked once the digits are scanned, before the rest is
    looked at. *)
Definition int_digits (py : Interpreter) (text : string) (negative : bool)
    (l : list ascii) : message + Z :=
  match l with
  | [] => inl (InvalidLiteral text)
  | a :: _ =>
      match digit_of a with
      | None => inl (InvalidLiteral text)
      | Some _ =>
          match scan_digits 0 false l with
          | Some (n, rest) =>
              if exceeds_limit py (count_digits l) then
                inl (DigitLimit (int_max_str_digits py) (count_digits l))
              else if forallb is_space rest then inr (if negative then - n else n)
              else inl (InvalidLiteral text)
          | None => inl (InvalidLiteral text)
          end
      end
  end.

(** [int(text)] for an ASCII text: white space, an optional sign, then
    the digits. *)
Definition int_ascii (py : Interpreter) (text : string) : message + Z :=
  match skip_spaces (String.list_ascii_of_string text) with
  | a :: l' =>
      if bool_decide (a = "+"%char) then int_digits py text false l'
      else if bool_decide (a = "-"%char) then int_digits py text true l'
      else int_digits py text false (a :: l')
  | [] => int_digits py text false []
  end.

(** [int(text)]: the integer, or the text of the [ValueError]. *)
Definition py_int (py : Interpreter) (text : string) : message + Z :=
  if is_ascii_text text then int_ascii py text else unicode_int py text.

(** The body of the loop of [convert_values] for one column type. *)
Definition convert_value (py : Interpreter) (column_type : pyclass) (text : string)
    : exn + value :=
  match column_type with
  | PyStr => inr (VStr text)
  | PyInt =>
      match py_int py text with
      | inr n => inr (VInt n)
      | inl m => inl (ValueError m)
      end
  | PyBool => inr (VBool (bool_decide (py_lower text = "true")))
  | _ => inr (VStr text)
  end.

(** [for i, (_, column_type) in enumerate(column_info)], started at [i]. *)
Fixpoint convert_loop (py : Interpreter) (cols : list (string * pyclass)) (i : nat)
    (values : list string) : exn + list value :=
  match cols with
  | [] => inr []
  | (_, column_type) :: cols' =>
      match values !! i with
      | None => inl (IndexError ListIndexOutOfRange)
      | Some text =>
          match convert_value py column_type text with
          | inl e => inl e
          | inr v =>
              match convert_loop py cols' (S i) values with
              | inl e => inl e
              | inr converted => inr (v :: converted)
              end
          end
      end
  end.

Definition convert_values (py : Interpreter) (column_info : list (string * pyclass))
    (values : list string) : exn + list value :=
  convert_loop py column_info 0 values.

(** ** The row mutations of the access layer

    A mutation answers with its [success] flag, or lets an exception it does
    not catch escape.  The table it acts on is the object the database
    holds, so whatever the call did to the table is in the database
    afterwards. *)

Definition set_table (database : Database) (table_name : string) (t : DynamicTable)
    : Database :=
  {| tables := <[table_name := t]> (tables database) |}.

(** [except ValueError] *)
Definition catch_ValueError (o : outcome) : exn + bool :=
  match o with
  | Returned => inr true
  | Raised (ValueError _) => inr false
  | Raised e => inl e
  end.

(** [except (ValueError, IndexError)] *)
Definition catch_ValueError_IndexError (o : outcome) : exn + bool :=
  match o with
  | Returned => inr true
  | Raised (ValueError _) | Raised (IndexError _) => inr false
  | Raised e => inl e
  end.

(** [except IndexError] *)
Definition catch_IndexError (o : outcome) : exn + bool :=
  match o with
  | Returned => inr true
  | Raised (IndexError _) => inr false
  | Raised e => inl e
  end.

Definition AddRowMutation_mutate (py : Interpreter) (database : Database)
    (table_name : string) (values : list string) : (exn + bool) * Database :=
  match tables database !! table_name with
  | None => (inr false, database)
  | Some dynamic_table =>
      match convert_values py (column_info dynamic_table) values with
      | inl e => (catch_ValueError (Raised e), database)
      | inr converted_values =>
          let '(o, t) := add_row dynamic_table converted_values in
          (catch_ValueError o, set_table database table_name t)
      end
  end.

Definition UpdateRowMutation_mutate (py : Interpreter) (database : Database)
    (table_name : string) (row_index : Z) (values : list string)
    : (exn + bool) * Database :=
  match tables database !! table_name with
  | None => (inr false, database)
  | Some dynamic_table =>
      match convert_values py (column_info dynamic_table) values with
      | inl e => (catch_ValueError_IndexError (Raised e), database)
      | inr converted_values =>
          let '(o, t) := update_row dynamic_table row_index converted_values in
          (catch_ValueError_IndexError o, set_table database table_name t)
      end
  end.

Definition DeleteRowMutation_mutate (database : Database) (table_name : string)
    (row_index : Z) : (exn + bool) * Database :=
  match tables database !! table_name with
  | None => (inr false, database)
  | Some dynamic_table =>
      let '(o, t) := delete_row dynamic_table row_index in
      (catch_IndexError o, set_table database table_name t)
  end.

Definition RemoveDuplicatesMutation_mutate (database : Database) (table_name : string)
    : (exn + bool) * Database :=
  match tables database !! table_name with
  | None => (inr false, database)
  | Some dynamic_table =>
      let '(o, t) := remove_duplicates dynamic_table in
      (catch_ValueError o, set_table database table_name t)
  end.

(** ** The seed table of the program *)

Definition table_info : list (string * pyclass) :=
  [("Name", PyStr); ("Age", PyInt); ("City", PyStr); ("IsStudent", PyBool)].

(** ** The invariants of a table *)

(** [set(row.keys()) == set(column names)] for every row. *)
Definition row_keys_match (t : DynamicTable) : Prop :=
  Forall (λ row : gmap string value, dom row = list_to_set (column_names t)) (rows t).

(** The schema invariant: column names are unique. *)
Definition unique_names (t : DynamicTable) : Prop := NoDup (column_names t).

(** The core operations on a table. *)
Inductive table_op :=
  | AddColumn (column_name : string) (column_type : pyclass)
  | RemoveColumn (column_name : string)
  | AddRow (values : list value)
  | UpdateRow (row_index : Z) (values : list value)
  | DeleteRow (row_index : Z)
  | RemoveDuplicates.

Definition apply_op (op : table_op) (t : DynamicTable) : outcome * DynamicTable :=
  match op with
  | AddColumn n ty => add_column t n ty
  | RemoveColumn n => delete_column t n
  | AddRow vs => add_row t vs
  | UpdateRow i vs => update_row t i vs
  | DeleteRow i => delete_row t i
  | RemoveDuplicates => remove_duplicates t
  end.

(** The table after a sequence of calls, whatever each call answered. *)
Fixpoint run (ops : list table_op) (t : DynamicTable) : DynamicTable :=
  match ops with
  | [] => t
  | op :: ops' => run ops' (apply_op op t).2
  end.

(** The errors the specification names for each operation. *)
Definition specified_error (op : table_op) (e : exn) : Prop :=
  match op with
  | AddColumn n _ => e = ValueError (ColumnExists n)
  | RemoveColumn n => e = ValueError (ColumnMissing n)
  | AddRow _ =>
      e = ValueError ArityMsg ∨ ∃ c ty a, e = ValueError (InvalidType c ty a)
  | UpdateRow _ _ =>
      e = IndexError RowIndexOutOfBounds ∨ e = ValueError ArityMsg
      ∨ ∃ c ty a, e = ValueError (InvalidType c ty a)
  | DeleteRow _ => e = IndexError ListIndexOutOfRange
  | RemoveDuplicates => False
  end.

(** Every table of the store satisfies the row invariant. *)
Definition store_rows_match (db : Database) : Prop :=
  map_Forall (λ _ t, row_keys_match t) (tables db).

(** ** Duplicate rows, in the words of the specification *)

(** The tuple of a row's values in schema-column order.  Under the row
    invariant every column is a key of the row, so no position is
    skipped and this is the tuple [key_values] builds. *)
Definition row_tuple (cols : list (string * pyclass)) (row : gmap string value)
    : list value :=
  omap (λ col, row !! col.1) cols.

(** A row is a duplicate when the tuple of some earlier row of the table,
    kept or not, equals its own.  [first_occurrences cols earlier todo]
    keeps, in order, the rows of [todo] that are not duplicates, [earlier]
    being the rows before them. *)
Fixpoint first_occurrences (cols : list (string * pyclass))
    (earlier todo : list (gmap string value)) : list (gmap string value) :=
  match todo with
  | [] => []
  | row :: rest =>
      if tuple_in (row_tuple cols row) (row_tuple cols <$> earlier)
      then first_occurrences cols (earlier ++ [row]) rest
      else row :: first_occurrences cols (earlier ++ [row]) rest
  end.

(** No row has the tuple of a row before it. *)
Fixpoint distinct_tuples (cols : list (string * pyclass))
    (rws : list (gmap string value)) : Prop :=
  match rws with
  | [] => True
  | row :: rest =>
      Forall (λ r, tuple_eq (row_tuple cols row) (row_tuple cols r) = false) rest
      ∧ distinct_tuples cols rest
  end.

(** [table = DynamicTable(table_info)] and the four [add_row] calls that
    follow it. *)
Definition table : DynamicTable :=
  run [AddRow [VStr "Alice"; VInt 25; VStr "New York"; VBool false];
       AddRow [VStr "Bob"; VInt 30; VStr "San Francisco"; VBool true];
       AddRow [VStr "Alice"; VInt 25; VStr "New York"; VBool false];
       AddRow [VStr "Charlie"; VInt 22; VStr "Los Angeles"; VBool true]]
    (DynamicTable_init table_info).

(** ** Text conversion, in the words of the specification *)

(** The text without its surrounding white space. *)
Definition trim (text : string) : string :=
  String.string_of_list_ascii
    (rev (skip_spaces (rev (skip_spaces (String.list_ascii_of_string text))))).

(** The Boolean rule as the specification words it: the text equals
    [true] case-insensitively after trimming. *)
Definition trimmed_caseless_true (text : string) : bool :=
  bool_decide (py_lower (trim text) = "true").

(** The sixteen spellings of [true] that differ only in case. *)
Definition is_true_spelling (text : string) : Prop :=
  ∃ a b c d : ascii,
    text = String a (String b (String c (String d EmptyString)))
    ∧ (a = "t" ∨ a = "T")%char ∧ (b = "r" ∨ b = "R")%char
    ∧ (c = "u" ∨ c = "U")%char ∧ (d = "e" ∨ d = "E")%char.

(** The optional sign of a literal. *)
Inductive sign := NoSign | Plus | Minus.

Definition sign_text (s : sign) : list ascii :=
  match s with
  | NoSign => []
  | Plus => ["+"%char]
  | Minus => ["-"%char]
  end.

Definition apply_sign (s : sign) (n : Z) : Z :=
  match s with
  | Minus => - n
  | _ => n
  end.

(** The value of a digit string read in base 10, most significant first. *)
Definition decimal_step (acc : Z) (a : ascii) : Z :=
  10 * acc + default 0 (digit_of a).

Definition decimal_value (digits : list ascii) : Z :=
  foldl decimal_step 0 digits.

Definition digit_group (g : list ascii) : Prop :=
  g ≠ [] ∧ Forall (λ a, is_Some (digit_of a)) g.

(** The groups after the first, each behind its underscore. *)
Definition more_groups (gs : list (list ascii)) : list ascii :=
  concat ((λ g, "_"%char :: g) <$> gs).

(** A base-10 integer literal of value [z]: white space, an optional sign,
    one or more groups of digits separated by single underscores, white
    space. *)
Definition int_literal (text : string) (z : Z) : Prop :=
  ∃ ws1 s g gs ws2,
    String.list_ascii_of_string text = ws1 ++ sign_text s ++ g ++ more_groups gs ++ ws2
    ∧ Forall (λ a, is_space a = true) ws1
    ∧ Forall (λ a, is_space a = true) ws2
    ∧ digit_group g ∧ Forall digit_group gs
    ∧ z = apply_sign s (decimal_value (g ++ concat gs)).

(** ** Further code of the access layer *)

(** [RemoveTableMutation.mutate] *)
Definition RemoveTableMutation_mutate (database : Database) (table_name : string)
    : (exn + bool) * Database :=
  let '(o, db) := remove_table database table_name in
  (catch_ValueError o, db).

(** [col[1].__name__] *)
Definition class_name (c : pyclass) : string :=
  match c with
  | PyStr => "str"
  | PyInt => "int"
  | PyBool => "bool"
  | PyNoneType => "NoneType"
  end.

(** The dict [Query.resolve_table] answers with. *)
Record TableData := {
  td_table_name : string;
  td_column_info : list (string * string);
  td_rows : list (gmap string value)
}.

(** [Query.resolve_table]; [None] is Python's [None]. *)
Definition resolve_table (database : Database) (table_name : string)
    : option TableData :=
  match tables database !! table_name with
  | None => None
  | Some dynamic_table =>
      Some {| td_table_name := table_name;
              td_column_info :=
                (λ col, (col.1, class_name col.2)) <$> column_info dynamic_table;
              td_rows := rows dynamic_table |}
  end.

(** ** Further properties, in the words used below *)

(** The three column types the conversion knows. *)
Definition basic_class (c : pyclass) : bool :=
  match c with
  | PyNoneType => false
  | _ => true
  end.

(** A text the conversion accepts for a column: any text, except that for
    an [int] column it must be one on which [int] returns. *)
Definition convertible (py : Interpreter) (col : string * pyclass) (text : string)
    : Prop :=
  col.2 = PyInt → ∃ z, py_int py text = inr z.

(** The number of digit characters of a text. *)
Definition digit_chars (text : string) : nat :=
  length (omap digit_of (String.list_ascii_of_string text)).

(** An interpreter for the examples, all of which use ASCII texts: the
    default limit of 4300 digits; its [unicode_int] is not consulted on
    an ASCII text. *)
Definition example_interpreter : Interpreter :=
  {| int_max_str_digits := 4300;
     unicode_int := λ text, inl (InvalidLiteral text) |}.

(** Every value a row holds for a column is an instance of the column's
    type, or [None]. *)
Definition rows_well_typed (t : DynamicTable) : Prop :=
  Forall (λ row : gmap string value,
            ∀ c ty v, (c, ty) ∈ column_info t → row !! c = Some v →
                      isinstance v ty = true ∨ v = VNone)
         (rows t).

(** The database [db'] differs from [db] at most in the rows of the table
    called [table_name]: every other name is bound as in [db], and that
    name is bound in both or in neither, to tables of the same schema. *)
Definition only_rows_of (table_name : string) (db db' : Database) : Prop :=
  (∀ other, other ≠ table_name → tables db' !! other = tables db !! other)
  ∧ column_info <$> tables db' !! table_name = column_info <$> tables db !! table_name.

(** ** [display_table] *)

Definition digit_char (d : Z) : ascii := ascii_of_nat (48 + Z.to_nat d).

(** The decimal digits of a natural number before [acc], most significant
    first; [fuel] bounds the number of digits. *)
Fixpoint decimal_digits (fuel : nat) (n : Z) (acc : list ascii) : list ascii :=
  match fuel with
  | O => acc
  | S fuel' =>
      if n <? 10 then digit_char n :: acc
      else decimal_digits fuel' (n / 10) (digit_char (n `mod` 10) :: acc)
  end.

(** [str(n)] for an integer: its decimal text, or the text of the
    [ValueError] raised when it has more digits than the limit. *)
Definition py_str_int (py : Interpreter) (n : Z) : message + string :=
  let digits := decimal_digits (S (Z.to_nat (Z.log2 (Z.abs n)))) (Z.abs n) [] in
  if exceeds_limit py (length digits) then inl (DigitLimitStr (int_max_str_digits py))
  else inr (String.string_of_list_ascii (if n <? 0 then "-"%char :: digits else digits)).

(** [str(value)] *)
Definition py_str (py : Interpreter) (v : value) : message + string :=
  match v with
  | VStr s => inr s
  | VInt n => py_str_int py n
  | VBool true => inr "True"
  | VBool false => inr "False"
  | VNone => inr "None"
  end.

(** [sep.join(l)] *)
Fixpoint py_join (sep : string) (l : list string) : string :=
  match l with
  | [] => ""
  | [s] => s
  | s :: l' => s +:+ sep +:+ py_join sep l'
  end.

(** [str(row.get(column[0], ""))] *)
Definition cell (py : Interpreter) (row : gmap string value) (column : string * pyclass)
    : exn + string :=
  match row !! column.1 with
  | Some v =>
      match py_str py v with
      | inr s => inr s
      | inl m => inl (ValueError m)
      end
  | None => inr ""
  end.

(** [[str(row.get(column[0], "")) for column in self.column_info]] *)
Fixpoint cells (py : Interpreter) (row : gmap string value)
    (cols : list (string * pyclass)) : exn + list string :=
  match cols with
  | [] => inr []
  | column :: cols' =>
      match cell py row column with
      | inl e => inl e
      | inr s =>
          match cells py row cols' with
          | inl e => inl e
          | inr l => inr (s :: l)
          end
      end
  end.

(** ["-" * n] *)
Fixpoint dashes (n : nat) : string :=
  match n with
  | O => ""
  | S n' => String "-" (dashes n')
  end.

(** The loop of [display_table] over the rows: the lines handed to
    [print], and the exception of [str] that stopped it, if any. *)
Fixpoint display_rows (py : Interpreter) (cols : list (string * pyclass))
    (rws : list (gmap string value)) : list string * option exn :=
  match rws with
  | [] => ([], None)
  | row :: rest =>
      match cells py row cols with
      | inl e => ([], Some e)
      | inr row_values =>
          let '(lines, e) := display_rows py cols rest in
          (py_join "|" row_values :: lines, e)
      end
  end.

(** [display_table]: the lines it hands to [print], in order, and the
    exception [str] raises on a cell, if any.  What [print] does with a
    line is the standard output's business. *)
Definition display_table (py : Interpreter) (self : DynamicTable)
    : list string * option exn :=
  let header := py_join "|" (column_names self) in
  let '(lines, e) := display_rows py (column_info self) (rows self) in
  (header :: dashes (String.length header) :: lines, e).
#[local] Set Warnings "-clear-no-such-hyp".

(** ** Lemmas on the loops *)

Section loops.
Implicit Types (cols : list (string * pyclass)) (values vs : list value).
Implicit Types (row : gmap string value) (rws : list (gmap string value)).

Lemma validate_inr cols i values vs :
  validate cols i values = inr vs → vs = take (length cols) (drop i values).
Proof.
  revert i vs. induction cols as [|[c ty] cols IH]; intros i vs; simpl.
  - by intros [= <-].
  - destruct (values !! i) as [v|] eqn:Hv; [|done].
    destruct (isinstance v ty); [|done].
    destruct (validate cols (S i) values) as [e|vs'] eqn:Hrec; [done|].
    intros [= <-]. rewrite (IH _ _ Hrec). by rewrite (drop_S _ _ _ Hv).
Qed.

Lemma validate_full cols values vs :
  length values = length cols → validate cols 0 values = inr vs → vs = values.
Proof.
  intros Hlen Hval. apply validate_inr in Hval as ->.
  rewrite drop_0. apply take_ge. lia.
Qed.

Lemma validate_error cols i values e :
  validate cols i values = inl e →
  e = IndexError ListIndexOutOfRange ∨ ∃ c ty a, e = ValueError (InvalidType c ty a).
Proof.
  revert i. induction cols as [|[c ty] cols IH]; intros i; simpl; [done|].
  destruct (values !! i) as [v|]; [|intros [= <-]; by left].
  destruct (isinstance v ty); [|intros [= <-]; right; eauto].
  destruct (validate cols (S i) values) eqn:Hrec; [|done].
  intros [= <-]. eauto.
Qed.

Lemma validate_in_range cols i values :
  (i + length cols ≤ length values)%nat →
  validate cols i values ≠ inl (IndexError ListIndexOutOfRange).
Proof.
  revert i. induction cols as [|[c ty] cols IH]; intros i Hlen; simpl in *; [done|].
  destruct (values !! i) as [v|] eqn:Hv.
  - destruct (isinstance v ty); [|done].
    specialize (IH (S i)). destruct (validate cols (S i) values); [|done].
    intros [= ->]. apply IH; [lia | done].
  - apply lookup_ge_None in Hv. lia.
Qed.

Lemma dom_foldl_insert (d : gmap string value) (keys : list string) vs :
  length keys = length vs →
  dom (foldl (λ d kv, <[kv.1 := kv.2]> d) d (zip keys vs)) = dom d ∪ list_to_set keys.
Proof.
  revert d vs. induction keys as [|k keys IH]; intros d [|v vs] Hlen; simplify_eq/=.
  - set_solver.
  - rewrite IH; [|done]. rewrite dom_insert_L. set_solver.
Qed.

Lemma dom_dict_zip (keys : list string) vs :
  length keys = length vs → dom (dict_zip keys vs) = list_to_set keys.
Proof.
  intros Hlen. unfold dict_zip. rewrite dom_foldl_insert; [|done]. set_solver.
Qed.

Lemma lookup_foldl_insert_notin (d : gmap string value) (keys : list string) vs k :
  k ∉ keys →
  foldl (λ d kv, <[kv.1 := kv.2]> d) d (zip keys vs) !! k = d !! k.
Proof.
  revert d vs. induction keys as [|k' keys IH]; intros d [|v vs] Hk; simpl; try done.
  apply not_elem_of_cons in Hk as [Hne Hk].
  rewrite IH; [|done]. by rewrite lookup_insert_ne.
Qed.

Lemma lookup_dict_zip (keys : list string) vs i k v :
  NoDup keys → keys !! i = Some k → vs !! i = Some v →
  dict_zip keys vs !! k = Some v.
Proof.
  unfold dict_zip. generalize (∅ : gmap string value).
  revert vs i. induction keys as [|k' keys IH]; intros vs i d Hnd Hk Hv; [done|].
  apply NoDup_cons in Hnd as [Hnotin Hnd].
  destruct vs as [|v' vs]; [by destruct i|].
  destruct i as [|i]; simplify_eq/=.
  - rewrite lookup_foldl_insert_notin; [|done]. by rewrite lookup_insert_eq.
  - by eapply IH.
Qed.

Lemma del_key_rows_present c rws :
  Forall (λ row, is_Some (row !! c)) rws →
  del_key_rows c rws = (delete c <$> rws, None).
Proof.
  induction 1 as [|row rws [v Hv] _ IH]; simpl; [done|].
  by rewrite Hv, IH.
Qed.

Lemma list_index_Some x (names : list string) :
  x ∈ names → ∃ i, list_index x names = Some i ∧ names !! i = Some x
                   ∧ ∀ j, (j < i)%nat → names !! j ≠ Some x.
Proof.
  induction names as [|y names IH]; [by intros ?%elem_of_nil|].
  intros Hin. simpl. case_bool_decide as Hy.
  - subst. exists 0%nat. split; [done|]. split; [done|]. intros j ?; lia.
  - apply elem_of_cons in Hin as [->|Hin]; [done|].
    destruct (IH Hin) as (i & -> & Hi & Hmin). exists (S i).
    split; [done|]. split; [done|]. intros [|j] Hj; simpl; [congruence|].
    apply Hmin. lia.
Qed.

Lemma list_to_set_delete_NoDup (names : list string) i x :
  NoDup names → names !! i = Some x →
  list_to_set (delete i names) =@{gset string} list_to_set names ∖ {[x]}.
Proof.
  revert i. induction names as [|y names IH]; intros i Hnd Hi; [done|].
  apply NoDup_cons in Hnd as [Hnotin Hnd].
  destruct i as [|i]; simplify_eq/=.
  - set_solver.
  - rewrite (IH i); [|done..].
    assert (y ≠ x) by (intros ->; apply Hnotin; by eapply list_elem_of_lookup_2).
    set_solver.
Qed.

Lemma key_values_present cols row :
  Forall (λ col, is_Some (row !! col.1)) cols →
  key_values cols row = inr (omap (λ col, row !! col.1) cols).
Proof.
  induction 1 as [|[c ty] cols [v Hv] _ IH]; simpl in *; [done|].
  by rewrite Hv, IH.
Qed.

Lemma dedup_loop_sublist cols todo seen unique out :
  dedup_loop cols todo seen unique = inr out →
  ∃ kept, out = unique ++ kept ∧ kept `sublist_of` todo.
Proof.
  revert seen unique. induction todo as [|row rest IH]; intros seen unique; simpl.
  - intros [= <-]. exists []. by rewrite app_nil_r.
  - destruct (key_values cols row) as [e|key]; [done|].
    destruct (negb (tuple_in key seen)); intros Hloop.
    + destruct (IH _ _ Hloop) as (kept & -> & Hsub).
      exists (row :: kept). rewrite <- app_assoc. split; [done|].
      by apply sublist_skip.
    + destruct (IH _ _ Hloop) as (kept & -> & Hsub).
      exists kept. split; [done|]. by apply sublist_cons.
Qed.

Lemma dedup_loop_total cols todo seen unique :
  Forall (λ row, Forall (λ col, is_Some (row !! col.1)) cols) todo →
  ∃ out, dedup_loop cols todo seen unique = inr out.
Proof.
  intros Hall. revert seen unique.
  induction Hall as [|row rest Hrow _ IH]; intros seen unique; simpl; [eauto|].
  rewrite (key_values_present _ _ Hrow).
  destruct (negb _); apply IH.
Qed.
End loops.

(** ** Each operation keeps the invariants, or fails without a trace *)

Section operations.
Implicit Types (t : DynamicTable) (row : gmap string value).

Lemma Forall_sublist_of {A} (P : A → Prop) (l k : list A) :
  l `sublist_of` k → Forall P k → Forall P l.
Proof.
  intros Hsub Hk. apply Forall_forall. intros x Hx.
  rewrite Forall_forall in Hk. apply Hk. by eapply elem_of_sublist.
Qed.

Lemma row_has_columns t row :
  dom row = list_to_set (column_names t) →
  Forall (λ col : string * pyclass, is_Some (row !! col.1)) (column_info t).
Proof.
  intros Hdom. apply Forall_forall. intros [c ty] Hin.
  apply elem_of_dom. rewrite Hdom. apply elem_of_list_to_set.
  unfold column_names. apply list_elem_of_fmap. by exists (c, ty).
Qed.

Lemma add_column_ok t n ty :
  unique_names t → row_keys_match t →
  match add_column t n ty with
  | (Returned, t') => unique_names t' ∧ row_keys_match t'
  | (Raised e, t') => t' = t ∧ e = ValueError (ColumnExists n)
  end.
Proof.
  intros Hnd Hinv. unfold add_column. case_bool_decide as Hin; [done|].
  unfold unique_names, row_keys_match, column_names in *. simpl.
  rewrite fmap_app. simpl. split.
  - apply NoDup_app. split; [done|]. split; [|apply NoDup_singleton].
    intros x Hx ->%list_elem_of_singleton. done.
  - apply Forall_fmap. eapply Forall_impl; [exact Hinv|].
    intros row Hdom. simpl. rewrite dom_insert_L, Hdom, list_to_set_app_L.
    set_solver.
Qed.

Lemma delete_column_ok t n :
  unique_names t → row_keys_match t →
  match delete_column t n with
  | (Returned, t') => unique_names t' ∧ row_keys_match t'
  | (Raised e, t') => t' = t ∧ e = ValueError (ColumnMissing n)
  end.
Proof.
  intros Hnd Hinv. unfold delete_column. case_bool_decide as Hin; simpl; [|done].
  destruct (list_index_Some _ _ Hin) as (i & -> & Hi & _).
  rewrite del_key_rows_present; cycle 1.
  { eapply Forall_impl; [exact Hinv|]. intros row Hdom. simpl in Hdom.
    apply elem_of_dom. rewrite Hdom. by apply elem_of_list_to_set. }
  unfold unique_names, row_keys_match, column_names in *. simpl.
  rewrite list_fmap_delete. split.
  - exact (sublist_NoDup _ _ Hnd (sublist_delete _ _)).
  - apply Forall_fmap. eapply Forall_impl; [exact Hinv|].
    intros row Hdom. simpl.
    by rewrite dom_delete_L, Hdom, (list_to_set_delete_NoDup _ _ _ Hnd Hi).
Qed.

Lemma add_row_ok t values :
  row_keys_match t →
  match add_row t values with
  | (Returned, t') => column_info t' = column_info t ∧ row_keys_match t'
  | (Raised e, t') => t' = t ∧ specified_error (AddRow values) e
  end.
Proof.
  intros Hinv. unfold add_row. case_bool_decide as Hlen; [by split; [|left]|].
  destruct (validate _ _ _) as [e|vs] eqn:Hval.
  - split; [done|]. destruct (validate_error _ _ _ _ Hval) as [->|?]; [|by right].
    exfalso. eapply validate_in_range; [|exact Hval]. lia.
  - apply validate_full in Hval as ->; [|done]. split; [done|].
    unfold row_keys_match, column_names in *. simpl.
    apply Forall_app. split; [done|]. apply Forall_singleton.
    apply dom_dict_zip. by rewrite length_fmap.
Qed.

Lemma py_index_in_range (len : nat) (i : Z) :
  0 ≤ i < Z.of_nat len → py_index len i = Some (Z.to_nat i).
Proof. intros Hi. unfold py_index. by rewrite bool_decide_eq_true_2. Qed.

Lemma update_row_ok t i values :
  row_keys_match t →
  match update_row t i values with
  | (Returned, t') => column_info t' = column_info t ∧ row_keys_match t'
  | (Raised e, t') => t' = t ∧ specified_error (UpdateRow i values) e
  end.
Proof.
  intros Hinv. unfold update_row.
  destruct (bool_decide (i < 0) || _) eqn:Hrange; [by split; [|left]|].
  apply orb_false_iff in Hrange as [Hlo%bool_decide_eq_false Hhi%bool_decide_eq_false].
  case_bool_decide as Hlen; [by split; [|right; left]|].
  destruct (validate _ _ _) as [e|vs] eqn:Hval.
  - split; [done|]. destruct (validate_error _ _ _ _ Hval) as [->|?]; [|by right; right].
    exfalso. eapply validate_in_range; [|exact Hval]. lia.
  - apply validate_full in Hval as ->; [|done].
    unfold list_setitem. rewrite py_index_in_range; [|lia]. split; [done|].
    unfold row_keys_match, column_names in *. simpl.
    apply Forall_insert; [done|]. apply dom_dict_zip. by rewrite length_fmap.
Qed.

Lemma delete_row_ok t i :
  row_keys_match t →
  match delete_row t i with
  | (Returned, t') => column_info t' = column_info t ∧ row_keys_match t'
  | (Raised e, t') => t' = t ∧ e = IndexError ListIndexOutOfRange
  end.
Proof.
  intros Hinv. unfold delete_row, list_delitem.
  destruct (py_index _ _); [|done]. split; [done|].
  unfold row_keys_match, column_names in *. simpl. by apply Forall_delete.
Qed.

Lemma remove_duplicates_ok t :
  row_keys_match t →
  ∃ unique_rows,
    remove_duplicates t
      = (Returned, {| column_info := column_info t; rows := unique_rows |})
    ∧ unique_rows `sublist_of` rows t.
Proof.
  intros Hinv. unfold remove_duplicates.
  destruct (dedup_loop_total (column_info t) (rows t) [] []) as [out Hout].
  { eapply Forall_impl; [exact Hinv|]. intros row. apply row_has_columns. }
  rewrite Hout. exists out. split; [done|].
  by destruct (dedup_loop_sublist _ _ _ _ _ Hout) as (kept & -> & Hsub).
Qed.

Lemma apply_op_ok op t :
  unique_names t → row_keys_match t →
  match apply_op op t with
  | (Returned, t') => unique_names t' ∧ row_keys_match t'
  | (Raised e, t') => t' = t ∧ specified_error op e
  end.
Proof.
  intros Hnd Hinv. destruct op as [n ty|n|vs|i vs|i|]; simpl.
  - apply add_column_ok; done.
  - apply delete_column_ok; done.
  - pose proof (add_row_ok t vs Hinv) as H.
    destruct (add_row t vs) as [[|e] t']; [|done].
    destruct H as [Hci H]. split; [|done]. unfold unique_names, column_names. by rewrite Hci.
  - pose proof (update_row_ok t i vs Hinv) as H.
    destruct (update_row t i vs) as [[|e] t']; [|done].
    destruct H as [Hci H]. split; [|done]. unfold unique_names, column_names. by rewrite Hci.
  - pose proof (delete_row_ok t i Hinv) as H.
    destruct (delete_row t i) as [[|e] t']; [|done].
    destruct H as [Hci H]. split; [|done]. unfold unique_names, column_names. by rewrite Hci.
  - destruct (remove_duplicates_ok t Hinv) as (u & -> & Hsub). split; [done|].
    unfold row_keys_match, column_names in *. simpl.
    by eapply Forall_sublist_of.
Qed.

Lemma run_ok ops t :
  unique_names t → row_keys_match t →
  unique_names (run ops t) ∧ row_keys_match (run ops t).
Proof.
  revert t. induction ops as [|op ops IH]; intros t Hnd Hinv; simpl; [done|].
  pose proof (apply_op_ok op t Hnd Hinv) as H.
  destruct (apply_op op t) as [[|e] t']; simpl.
  - destruct H. by apply IH.
  - destruct H as [-> _]. by apply IH.
Qed.
End operations.

(** ** [add_row]: what it raises and what it appends *)

Section add_row_facts.
Implicit Types (cols : list (string * pyclass)) (values : list value).

Lemma validate_first_mismatch cols k values i c ty v :
  cols !! i = Some (c, ty) →
  values !! (k + i)%nat = Some v →
  isinstance v ty = false →
  (∀ j c' ty' v', (j < i)%nat → cols !! j = Some (c', ty') →
     values !! (k + j)%nat = Some v' → isinstance v' ty' = true) →
  (k + length cols ≤ length values)%nat →
  validate cols k values = inl (ValueError (InvalidType c ty (type_of v))).
Proof.
  revert k i. induction cols as [|[c0 ty0] cols IH]; intros k i Hc Hv Hbad Hpre Hlen;
    [done|]. simpl in Hlen.
  destruct i as [|i]; simplify_eq/=.
  - rewrite Nat.add_0_r in Hv. by rewrite Hv, Hbad.
  - destruct (lookup_lt_is_Some_2 values k) as [v0 Hv0]; [lia|].
    rewrite Hv0. rewrite (Hpre 0%nat c0 ty0 v0); [|lia|done|by rewrite Nat.add_0_r].
    rewrite (IH (S k) i); [done|done|by rewrite Nat.add_succ_comm|done| |lia].
    intros j c' ty' v' Hj Hc' Hv'. apply (Hpre (S j) c' ty' v'); [lia|done|].
    by rewrite <- Nat.add_succ_comm.
Qed.

Lemma validate_all_pass cols k values :
  Forall2 (λ col v, isinstance v col.2 = true) cols (drop k values) →
  validate cols k values = inr (drop k values).
Proof.
  revert k. induction cols as [|[c ty] cols IH]; intros k Hall.
  - by apply Forall2_nil_inv_l in Hall as ->.
  - apply Forall2_cons_inv_l in Hall as (v & rest & Hok & Hall & Hdrop).
    assert (values !! k = Some v) as Hv.
    { rewrite <- (Nat.add_0_r k), <- lookup_drop. by rewrite Hdrop. }
    assert (drop (S k) values = rest) as Hrest.
    { replace (S k) with (k + 1)%nat by lia. rewrite <- drop_drop. by rewrite Hdrop. }
    simpl in *. rewrite Hv, Hok, IH; rewrite Hrest; [|done].
    by rewrite Hdrop.
Qed.
End add_row_facts.

(** ** The claims on schema and row consistency *)

(** X28. Schema/row consistency for schemas with unique names: starting
    from a new table whose schema has unique column names, after every
    sequence of calls to [add_column], [delete_column], [add_row],
    [update_row], row deletion and [remove_duplicates] -- hence at every
    point in between -- the key set of each row equals the set of the
    current column names.  The constructor does not check the names; what
    happens when one occurs twice is shown in the last section. *)
Theorem schema_row_consistency (column_info : list (string * pyclass))
    (ops : list table_op) :
  NoDup column_info.*1 →
  row_keys_match (run ops (DynamicTable_init column_info)).
Proof.
  intros Hnd. apply run_ok; [exact Hnd | apply Forall_nil_2].
Qed.

Lemma schema_row_consistency_witness :
  row_keys_match
    (run [AddRow [VStr "Alice"; VInt 25; VStr "New York"; VBool false];
          AddColumn "Score" PyInt;
          RemoveColumn "City";
          UpdateRow 0 [VStr "Bob"; VInt 30; VBool true; VInt 7];
          AddRow [VStr "Bob"; VInt 30; VBool true; VInt 7];
          RemoveDuplicates;
          DeleteRow 1]
       (DynamicTable_init table_info)).
Proof.
  apply (schema_row_consistency table_info).
  apply (bool_decide_unpack _). vm_compute. exact I.
Defined.





(** ** Column add/remove round trip *)

Lemma list_index_app_fresh x (names : list string) :
  x ∉ names → list_index x (names ++ [x]) = Some (length names).
Proof.
  induction names as [|y names IH]; intros Hx; simpl.
  - by rewrite bool_decide_eq_true_2.
  - apply not_elem_of_cons in Hx as [Hne Hx].
    rewrite bool_decide_eq_false_2; [|done]. by rewrite IH.
Qed.

(** C9. On a table whose rows satisfy the row invariant, adding a column
    whose name is not in the schema and then removing it succeeds twice
    and gives back the table exactly as it was: the same schema (names,
    types, order) and the same rows, value for value, none of which has
    the added key. *)
Theorem add_then_remove_column (t : DynamicTable) (n : string) (ty : pyclass) :
  n ∉ column_names t → row_keys_match t →
  ∃ t1, add_column t n ty = (Returned, t1)
        ∧ column_info t1 = column_info t ++ [(n, ty)]
        ∧ delete_column t1 n = (Returned, t)
        ∧ Forall (λ row : gmap string value, row !! n = None) (rows t).
Proof.
  intros Hfresh Hinv.
  assert (Forall (λ row : gmap string value, row !! n = None) (rows t)) as Hnone.
  { eapply Forall_impl; [exact Hinv|]. intros row Hdom. simpl in Hdom.
    apply not_elem_of_dom. rewrite Hdom. by rewrite elem_of_list_to_set. }
  unfold add_column. rewrite bool_decide_eq_false_2; [|done].
  eexists. split; [done|]. split; [done|]. split; [|done].
  unfold delete_column, column_names in *. simpl.
  rewrite fmap_app. simpl.
  rewrite bool_decide_eq_true_2; [|set_solver].
  simpl. rewrite list_index_app_fresh; [|done].
  rewrite del_key_rows_present; cycle 1.
  { apply Forall_fmap, Forall_true. intros row. simpl. by rewrite lookup_insert_eq. }
  rewrite length_fmap.
  rewrite (delete_middle (column_info t) [] (n, ty)), app_nil_r.
  rewrite <- list_fmap_compose.
  replace ((delete n ∘ λ row : gmap string value, <[n:=VNone]> row) <$> rows t)
    with (rows t); [by destruct t|].
  symmetry. rewrite <- (list_fmap_id (rows t)) at 2.
  apply Forall_fmap_ext. eapply Forall_impl; [exact Hnone|].
  intros row Hrow. simpl. by apply delete_insert_id.
Qed.

Lemma add_then_remove_column_witness :
  let t := (add_row (DynamicTable_init table_info)
              [VStr "Alice"; VInt 25; VStr "New York"; VBool false]).2 in
  ∃ t1, add_column t "Score" PyInt = (Returned, t1)
        ∧ column_info t1 = column_info t ++ [("Score", PyInt)]
        ∧ delete_column t1 "Score" = (Returned, t)
        ∧ Forall (λ row : gmap string value, row !! "Score" = None) (rows t).
Proof.
  intros t. apply (add_then_remove_column t "Score" PyInt).
  - apply (bool_decide_unpack _). vm_compute. exact I.
  - unfold row_keys_match. apply (bool_decide_unpack _). vm_compute. exact I.
Defined.

(** C10. On a table whose rows satisfy the row invariant,
    [remove_duplicates] returns without raising and leaves the schema --
    names, types and order -- as it was: only the row sequence can differ. *)
Theorem remove_duplicates_frame (t : DynamicTable) :
  row_keys_match t →
  (remove_duplicates t).1 = Returned
  ∧ column_info (remove_duplicates t).2 = column_info t.
Proof.
  intros Hinv. by destruct (remove_duplicates_ok t Hinv) as (u & -> & _).
Qed.

Lemma remove_duplicates_frame_witness :
  let t := (add_row (DynamicTable_init table_info)
              [VStr "Alice"; VInt 25; VStr "New York"; VBool false]).2 in
  (remove_duplicates t).1 = Returned
  ∧ column_info (remove_duplicates t).2 = column_info t.
Proof.
  intros t. apply (remove_duplicates_frame t).
  unfold row_keys_match. apply (bool_decide_unpack _). vm_compute. exact I.
Defined.

(** ** Equality of values and tuples is an equivalence *)

Lemma py_eq_refl a : py_eq a a = true.
Proof. destruct a; simpl; by try apply bool_decide_eq_true_2. Qed.

Lemma py_eq_sym a b : py_eq a b = py_eq b a.
Proof. destruct a, b; simpl; try done; apply bool_decide_ext; naive_solver. Qed.

Lemma py_eq_trans a b c : py_eq a b = true → py_eq b c = true → py_eq a c = true.
Proof.
  destruct a as [s1|n1|b1|], b as [s2|n2|b2|], c as [s3|n3|b3|]; simpl; try done;
    rewrite !bool_decide_eq_true; try congruence.
  intros <-. by destruct b1, b3.
Qed.

(** On two values of the same class, [==] is equality. *)
Lemma py_eq_same_class a b :
  type_of a = type_of b → py_eq a b = true ↔ a = b.
Proof.
  destruct a, b; simpl; try done; intros _;
    rewrite ?bool_decide_eq_true; split; congruence.
Qed.

Lemma tuple_eq_refl s : tuple_eq s s = true.
Proof. induction s as [|a s IH]; simpl; [done|]. by rewrite py_eq_refl. Qed.

Lemma tuple_eq_sym s t : tuple_eq s t = tuple_eq t s.
Proof.
  revert t. induction s as [|a s IH]; intros [|b t]; simpl; try done.
  by rewrite py_eq_sym, IH.
Qed.

Lemma tuple_eq_trans s t u :
  tuple_eq s t = true → tuple_eq t u = true → tuple_eq s u = true.
Proof.
  revert t u. induction s as [|a s IH]; intros [|b t] [|c u]; simpl; try done.
  intros [Hab Hst]%andb_true_iff [Hbc Htu]%andb_true_iff.
  apply andb_true_iff. split; [by eapply py_eq_trans | by eapply IH].
Qed.

Lemma tuple_in_app k l1 l2 : tuple_in k (l1 ++ l2) = tuple_in k l1 || tuple_in k l2.
Proof. apply existsb_app. Qed.

Lemma tuple_in_trans k k' seen :
  tuple_eq k k' = true → tuple_in k' seen = true → tuple_in k seen = true.
Proof.
  unfold tuple_in. rewrite !existsb_exists.
  intros Hk (s & Hs & Heq). exists s. split; [done|]. by eapply tuple_eq_trans.
Qed.

(** ** [remove_duplicates] against the specification's duplicates *)

Section dedup.
Variable cols : list (string * pyclass).
Implicit Types (row : gmap string value) (earlier todo : list (gmap string value)).

Let tuples earlier := row_tuple cols <$> earlier.

Lemma tuples_snoc earlier row k :
  tuple_in k (tuples (earlier ++ [row]))
  = tuple_in k (tuples earlier) || tuple_eq k (row_tuple cols row).
Proof.
  unfold tuples. rewrite fmap_app, tuple_in_app. simpl. by rewrite orb_false_r.
Qed.

(** A row whose tuple is already among the earlier ones adds nothing. *)
Lemma tuples_snoc_duplicate earlier row k :
  tuple_in (row_tuple cols row) (tuples earlier) = true →
  tuple_in k (tuples (earlier ++ [row])) = tuple_in k (tuples earlier).
Proof.
  intros Hdup. rewrite tuples_snoc.
  destruct (tuple_eq k (row_tuple cols row)) eqn:Heq; [|by rewrite orb_false_r].
  by rewrite (tuple_in_trans _ _ _ Heq Hdup).
Qed.

Lemma dedup_loop_first_occurrences todo earlier seen unique :
  Forall (λ row, Forall (λ col : string * pyclass, is_Some (row !! col.1)) cols) todo →
  (∀ k, tuple_in k seen = tuple_in k (tuples earlier)) →
  dedup_loop cols todo seen unique
    = inr (unique ++ first_occurrences cols earlier todo).
Proof.
  intros Hall. revert earlier seen unique.
  induction Hall as [|row rest Hrow _ IH]; intros earlier seen unique Hseen; simpl.
  - by rewrite app_nil_r.
  - rewrite (key_values_present _ _ Hrow). fold (row_tuple cols row).
    rewrite Hseen. fold (tuples earlier).
    destruct (tuple_in (row_tuple cols row) (tuples earlier)) eqn:Hdup; simpl.
    + apply IH. intros k. by rewrite tuples_snoc_duplicate.
    + rewrite (IH (earlier ++ [row])); [by rewrite <- app_assoc|].
      intros k. rewrite tuples_snoc. simpl. rewrite Hseen. apply orb_comm.
Qed.

Lemma first_occurrences_ext earlier earlier' todo :
  (∀ k, tuple_in k (tuples earlier) = tuple_in k (tuples earlier')) →
  first_occurrences cols earlier todo = first_occurrences cols earlier' todo.
Proof.
  revert earlier earlier'. induction todo as [|row rest IH]; intros E E' Hext; simpl;
    [done|].
  fold (tuples E) (tuples E'). rewrite Hext.
  rewrite (IH (E ++ [row]) (E' ++ [row])); [done|].
  intros k. by rewrite !tuples_snoc, Hext.
Qed.

Lemma first_occurrences_idempotent earlier todo :
  first_occurrences cols earlier (first_occurrences cols earlier todo)
  = first_occurrences cols earlier todo.
Proof.
  revert earlier. induction todo as [|row rest IH]; intros E; simpl; [done|].
  fold (tuples E).
  destruct (tuple_in (row_tuple cols row) (tuples E)) eqn:Hdup.
  - rewrite (first_occurrences_ext (E ++ [row]) E); [apply IH|].
    intros k. by apply tuples_snoc_duplicate.
  - simpl. fold (tuples E). by rewrite Hdup, IH.
Qed.

Lemma first_occurrences_sublist earlier todo :
  first_occurrences cols earlier todo `sublist_of` todo.
Proof.
  revert earlier. induction todo as [|row rest IH]; intros E; simpl; [done|].
  destruct (tuple_in _ _); [by apply sublist_cons | by apply sublist_skip].
Qed.

(** Every tuple of the table survives: each row is new to the earlier
    ones and then represented among the kept rows, or not new. *)
Lemma first_occurrences_cover earlier todo row :
  row ∈ todo →
  tuple_in (row_tuple cols row) (tuples earlier) = true
  ∨ ∃ r, r ∈ first_occurrences cols earlier todo
         ∧ tuple_eq (row_tuple cols row) (row_tuple cols r) = true.
Proof.
  revert earlier. induction todo as [|x rest IH]; intros E Hin;
    [by apply elem_of_nil in Hin|].
  simpl. fold (tuples E). apply elem_of_cons in Hin as [->|Hin].
  - destruct (tuple_in (row_tuple cols x) (tuples E)) eqn:Hdup; [by left|].
    right. exists x. split; [by left | apply tuple_eq_refl].
  - destruct (IH (E ++ [x]) Hin) as [Hmem|(r & Hr & Heq)].
    + rewrite tuples_snoc in Hmem. apply orb_true_iff in Hmem as [Hmem|Heq]; [by left|].
      destruct (tuple_in (row_tuple cols x) (tuples E)) eqn:Hdup.
      * left. by eapply tuple_in_trans.
      * right. exists x. split; [by left | done].
    + right. exists r. split; [|done].
      destruct (tuple_in (row_tuple cols x) (tuples E)); [done | by right].
Qed.

Lemma first_occurrences_distinct earlier todo :
  Forall (λ r, tuple_in (row_tuple cols r) (tuples earlier) = false)
    (first_occurrences cols earlier todo)
  ∧ distinct_tuples cols (first_occurrences cols earlier todo).
Proof.
  revert earlier. induction todo as [|x rest IH]; intros E; simpl; [done|].
  fold (tuples E). destruct (IH (E ++ [x])) as [Hnew Hdist].
  assert (Forall (λ r, tuple_in (row_tuple cols r) (tuples E) = false
                       ∧ tuple_eq (row_tuple cols x) (row_tuple cols r) = false)
            (first_occurrences cols (E ++ [x]) rest)) as Hboth.
  { eapply Forall_impl; [exact Hnew|]. intros r Hr. simpl in Hr.
    rewrite tuples_snoc in Hr. apply orb_false_iff in Hr as [? ?].
    by rewrite tuple_eq_sym. }
  apply Forall_and in Hboth as [HE Hx].
  destruct (tuple_in (row_tuple cols x) (tuples E)) eqn:Hdup; [done|].
  split; [by constructor | done].
Qed.
End dedup.

(** C4. On a table whose rows satisfy the row invariant, [remove_duplicates]
    returns and leaves exactly the rows whose tuple of values in schema
    order equals the tuple of no earlier row, in their original order: the
    kept rows are a subsequence of the rows, every row of the table has its
    tuple among the kept rows, and no kept row has the tuple of a kept row
    before it.  A second call returns and changes nothing.  Tuples are
    compared with Python's [==], which on two values of the same class is
    equality. *)
Theorem remove_duplicates_first_occurrences (t : DynamicTable) :
  row_keys_match t →
  let kept := first_occurrences (column_info t) [] (rows t) in
  let t' := {| column_info := column_info t; rows := kept |} in
  remove_duplicates t = (Returned, t')
  ∧ kept `sublist_of` rows t
  ∧ (∀ row, row ∈ rows t →
       ∃ r, r ∈ kept
            ∧ tuple_eq (row_tuple (column_info t) row) (row_tuple (column_info t) r) = true)
  ∧ distinct_tuples (column_info t) kept
  ∧ remove_duplicates t' = (Returned, t')
  ∧ (∀ a b, type_of a = type_of b → py_eq a b = true ↔ a = b).
Proof.
  intros Hinv kept t'.
  assert (Forall (λ row : gmap string value,
            Forall (λ col : string * pyclass, is_Some (row !! col.1)) (column_info t))
            (rows t)) as Hall.
  { eapply Forall_impl; [exact Hinv|]. intros row. apply row_has_columns. }
  assert (∀ rws, Forall (λ row : gmap string value,
            Forall (λ col : string * pyclass, is_Some (row !! col.1)) (column_info t)) rws →
          remove_duplicates {| column_info := column_info t; rows := rws |}
          = (Returned, {| column_info := column_info t;
                          rows := first_occurrences (column_info t) [] rws |})) as Hrun.
  { intros rws Hrws. unfold remove_duplicates. simpl.
    by rewrite (dedup_loop_first_occurrences _ rws [] [] []). }
  split; [|split; [|split; [|split; [|split]]]].
  - unfold t', kept. rewrite <- (Hrun (rows t) Hall). by destruct t.
  - apply first_occurrences_sublist.
  - intros row Hrow.
    by destruct (first_occurrences_cover (column_info t) [] (rows t) row Hrow).
  - apply first_occurrences_distinct.
  - unfold t'. rewrite Hrun.
    + unfold kept. by rewrite first_occurrences_idempotent.
    + eapply Forall_sublist_of; [apply first_occurrences_sublist | exact Hall].
  - apply py_eq_same_class.
Qed.

(** The specification's example: the second Alice row goes, the order of
    the others stays. *)
Lemma remove_duplicates_first_occurrences_witness :
  row_keys_match table
  ∧ remove_duplicates table
    = (Returned,
       {| column_info := table_info;
          rows := [dict_zip ["Name"; "Age"; "City"; "IsStudent"]
                     [VStr "Alice"; VInt 25; VStr "New York"; VBool false];
                   dict_zip ["Name"; "Age"; "City"; "IsStudent"]
                     [VStr "Bob"; VInt 30; VStr "San Francisco"; VBool true];
                   dict_zip ["Name"; "Age"; "City"; "IsStudent"]
                     [VStr "Charlie"; VInt 22; VStr "Los Angeles"; VBool true]] |}).
Proof.
  assert (row_keys_match table) as Hinv.
  { unfold row_keys_match. apply (bool_decide_unpack _). vm_compute. exact I. }
  split; [exact Hinv|].
  destruct (remove_duplicates_first_occurrences table Hinv) as [-> _].
  vm_compute. reflexivity.
Defined.

(** ** Defects *)

(** C5. [isinstance] accepts a [bool] where the column type is [int]: on a
    table with one [int] column, [add_row] with [True] or [False] returns
    and appends the row. *)
Theorem add_row_accepts_bool_for_int (c : string) (rws : list (gmap string value))
    (b : bool) :
  add_row {| column_info := [(c, PyInt)]; rows := rws |} [VBool b]
  = (Returned,
     {| column_info := [(c, PyInt)]; rows := rws ++ [{[c := VBool b]}] |}).
Proof. reflexivity. Qed.

(** The same on the schema of the seed table, at the Age position. *)
Example add_row_seed_bool_age :
  add_row (DynamicTable_init table_info)
    [VStr "Alice"; VBool true; VStr "New York"; VBool false]
  = (Returned,
     {| column_info := table_info;
        rows := [dict_zip ["Name"; "Age"; "City"; "IsStudent"]
                   [VStr "Alice"; VBool true; VStr "New York"; VBool false]] |}).
Proof. reflexivity. Qed.

(** C6. [del rows[-1]] deletes the last row: on a table with at least one
    row, the delete mutation with index [-1] answers success and the last
    row is gone. *)
Theorem delete_row_minus_one_deletes_last (m : gmap string DynamicTable)
    (table_name : string) (cols : list (string * pyclass))
    (rws : list (gmap string value)) (last : gmap string value) :
  DeleteRowMutation_mutate
    {| tables := <[table_name := {| column_info := cols; rows := rws ++ [last] |}]> m |}
    table_name (-1)
  = (inr true,
     {| tables := <[table_name := {| column_info := cols; rows := rws |}]> m |}).
Proof.
  unfold DeleteRowMutation_mutate. cbn [tables]. rewrite lookup_insert_eq.
  unfold delete_row, list_delitem, py_index, set_table. cbn [rows column_info tables].
  rewrite length_app. cbn [length].
  rewrite bool_decide_eq_false_2; [|lia].
  rewrite bool_decide_eq_true_2; [|lia].
  replace (Z.to_nat (-1 + Z.of_nat (length rws + 1))) with (length rws) by lia.
  rewrite (delete_middle rws [] last), app_nil_r. cbn [catch_IndexError].
  by rewrite insert_insert_eq.
Qed.

(** What row deletion does at every index: a position from [0] up to the
    row count, or from minus the row count up to [-1], is deleted; any
    other index raises [IndexError] and the table is unchanged. *)
Lemma delete_row_cases (t : DynamicTable) (i : Z) :
  let n := Z.of_nat (length (rows t)) in
  (0 ≤ i < n →
     delete_row t i
     = (Returned, {| column_info := column_info t; rows := delete (Z.to_nat i) (rows t) |}))
  ∧ (- n ≤ i < 0 →
     delete_row t i
     = (Returned,
        {| column_info := column_info t; rows := delete (Z.to_nat (i + n)) (rows t) |}))
  ∧ (i < - n ∨ n ≤ i → delete_row t i = (Raised (IndexError ListIndexOutOfRange), t)).
Proof.
  intros n. unfold delete_row, list_delitem, py_index. fold n.
  split; [|split]; intros Hi.
  - by rewrite bool_decide_eq_true_2.
  - rewrite bool_decide_eq_false_2; [|lia]. by rewrite bool_decide_eq_true_2.
  - rewrite bool_decide_eq_false_2; [|lia]. by rewrite bool_decide_eq_false_2; [|lia].
Qed.

(** ** The Boolean conversion *)

Ltac ascii_cases a :=
  destruct a as [[] [] [] [] [] [] [] []]; vm_compute; try discriminate; auto.

Lemma lower_char_t a : lower_char a = "t"%char ↔ (a = "t" ∨ a = "T")%char.
Proof. split; [ascii_cases a | by intros [-> | ->]]. Qed.

Lemma lower_char_r a : lower_char a = "r"%char ↔ (a = "r" ∨ a = "R")%char.
Proof. split; [ascii_cases a | by intros [-> | ->]]. Qed.

Lemma lower_char_u a : lower_char a = "u"%char ↔ (a = "u" ∨ a = "U")%char.
Proof. split; [ascii_cases a | by intros [-> | ->]]. Qed.

Lemma lower_char_e a : lower_char a = "e"%char ↔ (a = "e" ∨ a = "E")%char.
Proof. split; [ascii_cases a | by intros [-> | ->]]. Qed.

Lemma py_lower_true text : py_lower text = "true" ↔ is_true_spelling text.
Proof.
  split.
  - destruct text as [|a [|b [|c [|d [|? ?]]]]]; simpl; try done.
    intros [= Ha Hb Hc Hd]. exists a, b, c, d.
    by rewrite <- lower_char_t, <- lower_char_r, <- lower_char_u, <- lower_char_e.
  - intros (a & b & c & d & -> & Ha & Hb & Hc & Hd). simpl.
    apply lower_char_t in Ha. apply lower_char_r in Hb.
    apply lower_char_u in Hc. apply lower_char_e in Hd. congruence.
Qed.

(** C7, as the code has it.  The Boolean conversion never fails, and its
    value is true exactly when the text is [true] up to the case of its
    four letters; the text is not trimmed, so every other text, a padded
    one included, gives false. *)
Theorem bool_conversion_lenient (py : Interpreter) (c : string) (text : string) :
  ∃ b, convert_values py [(c, PyBool)] [text] = inr [VBool b]
       ∧ (b = true ↔ is_true_spelling text).
Proof.
  exists (bool_decide (py_lower text = "true")). split; [done|].
  by rewrite bool_decide_eq_true, py_lower_true.
Qed.

(** C7, as the specification words it, fails on a padded text: trimmed
    and lower-cased it is [true], and the conversion gives false. *)
Lemma bool_conversion_does_not_trim :
  trimmed_caseless_true " true" = true
  ∧ convert_values example_interpreter [("IsStudent", PyBool)] [" true"]
    = inr [VBool false].
Proof. split; reflexivity. Qed.

(** ** The integer conversion: [int] against the grammar of a literal *)

Section int_literal.
Implicit Types (a : ascii) (l g ws rest : list ascii) (gs : list (list ascii)).

Lemma decimal_step_digit acc a d :
  digit_of a = Some d → decimal_step acc a = 10 * acc + d.
Proof. intros Hd. unfold decimal_step. by rewrite Hd. Qed.

Lemma digit_not_space a d : digit_of a = Some d → is_space a = false.
Proof. ascii_cases a. Qed.

Lemma digit_not_underscore a d : digit_of a = Some d → is_underscore a = false.
Proof. ascii_cases a. Qed.

Lemma digit_not_sign a d : digit_of a = Some d → a ≠ "+"%char ∧ a ≠ "-"%char.
Proof. intros Hd. split; intros ->; vm_compute in Hd; discriminate. Qed.

Lemma space_not_digit a : is_space a = true → digit_of a = None.
Proof. ascii_cases a. Qed.

Lemma space_not_underscore a : is_space a = true → is_underscore a = false.
Proof. ascii_cases a. Qed.

Lemma underscore_not_digit : digit_of "_" = None.
Proof. reflexivity. Qed.

Lemma skip_spaces_app ws l :
  Forall (λ a, is_space a = true) ws → skip_spaces (ws ++ l) = skip_spaces l.
Proof. induction 1 as [|a ws Ha _ IH]; simpl; [done|]. by rewrite Ha. Qed.

Lemma skip_spaces_split l :
  ∃ ws, l = ws ++ skip_spaces l ∧ Forall (λ a, is_space a = true) ws.
Proof.
  induction l as [|a l (ws & Hl & Hws)]; simpl; [by exists []|].
  destruct (is_space a) eqn:Ha; [|by exists []].
  exists (a :: ws). split; [simpl; by rewrite <- Hl | by constructor].
Qed.

Lemma forallb_is_space ws :
  forallb is_space ws = true ↔ Forall (λ a, is_space a = true) ws.
Proof.
  rewrite forallb_forall, Forall_forall. split; intros H a Ha; apply H;
    by apply list_elem_of_In.
Qed.

(** The scanner accepts the digits of a group, then each further group
    behind its underscore, and stops before the white space. *)
Lemma scan_digits_complete gs g acc b ws :
  Forall (λ a, is_Some (digit_of a)) g →
  Forall digit_group gs →
  Forall (λ a, is_space a = true) ws →
  (b = true → g ≠ []) →
  scan_digits acc b (g ++ more_groups gs ++ ws)
  = Some (foldl decimal_step acc (g ++ concat gs), ws).
Proof.
  intros Hg Hgs Hws. revert g acc b Hg.
  induction Hgs as [|h gs [Hne Hh] _ IHgs]; intros g acc b Hg;
    revert acc b; induction Hg as [|a g [d Hd] _ IHg]; intros acc b Hb; simpl.
  - destruct b; [by destruct Hb|].
    destruct Hws as [|a ws Ha _]; [done|]. simpl.
    by rewrite (space_not_digit _ Ha), (space_not_underscore _ Ha).
  - rewrite Hd, IHg; [|done]. by rewrite (decimal_step_digit _ _ _ Hd).
  - destruct b; [by destruct Hb|].
    unfold more_groups. simpl. rewrite <- app_assoc.
    by apply IHgs.
  - rewrite Hd, IHg; [|done]. by rewrite (decimal_step_digit _ _ _ Hd).
Qed.

(** What the scanner accepted is a group, possibly empty when nothing
    obliges a digit, followed by further groups. *)
Lemma scan_digits_sound l acc b n rest :
  scan_digits acc b l = Some (n, rest) →
  ∃ g gs,
    l = g ++ more_groups gs ++ rest
    ∧ Forall (λ a, is_Some (digit_of a)) g
    ∧ Forall digit_group gs
    ∧ n = foldl decimal_step acc (g ++ concat gs)
    ∧ (b = true ∨ is_Some (head l ≫= digit_of) → g ≠ []).
Proof.
  revert acc b. induction l as [|a l IH]; intros acc b; simpl.
  - destruct b; [done|]. intros [= <- <-]. exists [], [].
    repeat split; try done. by intros [|[? ?]].
  - destruct (digit_of a) as [d|] eqn:Hd.
    + intros (g & gs & -> & Hg & Hgs & -> & _)%IH.
      exists (a :: g), gs. repeat split; try done.
      * constructor; [by rewrite Hd | done].
      * simpl. by rewrite (decimal_step_digit _ _ _ Hd).
    + destruct b; [done|]. destruct (is_underscore a) eqn:Hu.
      * apply bool_decide_eq_true in Hu as ->.
        intros (g & gs & -> & Hg & Hgs & -> & Hne)%IH.
        exists [], (g :: gs). unfold more_groups. simpl. rewrite <- app_assoc.
        repeat split; try done.
        -- constructor; [|done]. split; [|done]. apply Hne. by left.
        -- intros [|[? ?]]; done.
      * intros [= <- <-]. exists [], [].
        repeat split; try done. intros [|[? ?]]; done.
Qed.

Lemma skip_spaces_nonspace a l : is_space a = false → skip_spaces (a :: l) = a :: l.
Proof. intros Ha. simpl. by rewrite Ha. Qed.

Lemma count_digits_groups gs g ws :
  Forall (λ a, is_Some (digit_of a)) g →
  Forall digit_group gs →
  Forall (λ a, is_space a = true) ws →
  count_digits (g ++ more_groups gs ++ ws) = length (g ++ concat gs).
Proof.
  intros Hg Hgs Hws. revert g Hg.
  assert (∀ a g tail d, digit_of a = Some d →
            count_digits ((a :: g) ++ tail) = S (count_digits (g ++ tail))) as Hstep.
  { intros a g tail d Hd. simpl. by rewrite Hd. }
  induction Hgs as [|h gs [Hne Hh] _ IHgs]; intros g Hg;
    induction Hg as [|a g [d Hd] _ IHg].
  - destruct Hws as [|a ws Ha _]; [done|]. simpl.
    by rewrite (space_not_digit _ Ha), (space_not_underscore _ Ha).
  - rewrite (Hstep _ _ _ _ Hd), IHg. done.
  - unfold more_groups. simpl. rewrite <- app_assoc.
    by apply IHgs.
  - rewrite (Hstep _ _ _ _ Hd), IHg. done.
Qed.

Lemma omap_digit_of_spaces ws :
  Forall (λ a, is_space a = true) ws → omap digit_of ws = [].
Proof.
  induction 1 as [|a ws Ha _ IH]; simpl; [done|]. rewrite (space_not_digit _ Ha). exact IH.
Qed.

Lemma omap_digit_of_digits g :
  Forall (λ a, is_Some (digit_of a)) g → length (omap digit_of g) = length g.
Proof.
  induction 1 as [|a g [d Hd] _ IH]; simpl; [done|]. rewrite Hd. simpl. f_equal. exact IH.
Qed.

Lemma omap_digit_of_groups gs :
  Forall digit_group gs → length (omap digit_of (more_groups gs)) = length (concat gs).
Proof.
  induction 1 as [|h gs [_ Hh] _ IH]; [done|].
  change (more_groups (h :: gs)) with (("_"%char :: h) ++ more_groups gs).
  change (concat (h :: gs)) with (h ++ concat gs).
  rewrite omap_app, !length_app, IH.
  change (omap digit_of ("_"%char :: h)) with (omap digit_of h).
  by rewrite omap_digit_of_digits.
Qed.

(** The digit characters of a literal are the digits of its groups. *)
Lemma literal_digit_chars text ws1 s g gs ws2 :
  String.list_ascii_of_string text = ws1 ++ sign_text s ++ g ++ more_groups gs ++ ws2 →
  Forall (λ a, is_space a = true) ws1 →
  Forall (λ a, is_space a = true) ws2 →
  Forall (λ a, is_Some (digit_of a)) g → Forall digit_group gs →
  digit_chars text = length (g ++ concat gs).
Proof.
  intros Htext Hws1 Hws2 Hg Hgs. unfold digit_chars. rewrite Htext, !omap_app.
  rewrite (omap_digit_of_spaces _ Hws1), (omap_digit_of_spaces _ Hws2).
  rewrite app_nil_r. simpl. rewrite !length_app.
  rewrite (omap_digit_of_digits _ Hg), (omap_digit_of_groups _ Hgs). by destruct s.
Qed.

Lemma int_ascii_complete py text z :
  int_literal text z → exceeds_limit py (digit_chars text) = false →
  int_ascii py text = inr z.
Proof.
  intros (ws1 & s & g & gs & ws2 & Htext & Hws1 & Hws2 & [Hne Hg] & Hgs & ->) Hlimit.
  rewrite (literal_digit_chars _ _ _ _ _ _ Htext Hws1 Hws2 Hg Hgs) in Hlimit.
  unfold int_ascii. rewrite Htext, skip_spaces_app; [|done].
  destruct g as [|a g]; [done|].
  apply Forall_cons in Hg as Hag. destruct Hag as [[d Hd] _].
  pose proof (digit_not_sign _ _ Hd) as [Hplus Hminus].
  assert (∀ negative : bool,
            int_digits py text negative (a :: g ++ more_groups gs ++ ws2)
            = inr (if negative then - decimal_value ((a :: g) ++ concat gs)
                   else decimal_value ((a :: g) ++ concat gs))) as Hdigits.
  { intros negative. unfold int_digits. rewrite Hd.
    change (a :: g ++ more_groups gs ++ ws2) with ((a :: g) ++ more_groups gs ++ ws2).
    rewrite (scan_digits_complete gs (a :: g) 0 false ws2); [|done..].
    rewrite (count_digits_groups gs (a :: g) ws2), Hlimit; [|done..].
    by rewrite (proj2 (forallb_is_space ws2)). }
  destruct s; cbn [sign_text app apply_sign].
  - rewrite skip_spaces_nonspace; [|by eapply digit_not_space].
    rewrite (bool_decide_eq_false_2 (a = "+"%char)), (bool_decide_eq_false_2 (a = "-"%char));
      [|done..].
    apply Hdigits.
  - rewrite skip_spaces_nonspace; [|done].
    rewrite bool_decide_eq_true_2; [|done]. apply Hdigits.
  - rewrite skip_spaces_nonspace; [|done].
    rewrite bool_decide_eq_false_2; [|done].
    rewrite bool_decide_eq_true_2; [|done]. apply Hdigits.
Qed.

Lemma int_ascii_sound py text z :
  int_ascii py text = inr z →
  int_literal text z ∧ exceeds_limit py (digit_chars text) = false.
Proof.
  unfold int_ascii.
  destruct (skip_spaces_split (String.list_ascii_of_string text)) as (ws1 & Htext & Hws1).
  set (l := skip_spaces _) in *. clearbody l.
  assert (∀ s l' (negative : bool),
    l = sign_text s ++ l' →
    negative = match s with Minus => true | _ => false end →
    int_digits py text negative l' = inr z →
    int_literal text z ∧ exceeds_limit py (digit_chars text) = false) as Hbody.
  { intros s l' negative Hl Hneg Hparse. unfold int_digits in Hparse.
    destruct l' as [|a l']; [done|].
    destruct (digit_of a) as [d|] eqn:Hd; [|done].
    destruct (scan_digits 0 false (a :: l')) as [[n rest]|] eqn:Hscan; [|done].
    destruct (exceeds_limit py (count_digits (a :: l'))) eqn:Hlimit; [done|].
    destruct (forallb is_space rest) eqn:Hrest; [|done].
    apply forallb_is_space in Hrest.
    apply scan_digits_sound in Hscan as (g & gs & Hag & Hg & Hgs & -> & Hne).
    assert (g ≠ []) as Hg0 by (apply Hne; right; simpl; by rewrite Hd).
    rewrite Hag, (count_digits_groups gs g rest) in Hlimit; [|done..].
    rewrite Hl, Hag in Htext.
    rewrite (literal_digit_chars _ _ _ _ _ _ Htext Hws1 Hrest Hg Hgs).
    split; [|done].
    exists ws1, s, g, gs, rest.
    split; [done|]. split; [done|]. split; [done|]. split; [done|].
    split; [done|]. injection Hparse as <-. subst negative. by destruct s. }
  destruct l as [|a l'].
  - by apply (Hbody NoSign [] false).
  - case_bool_decide as Hplus; [subst; by apply (Hbody Plus l' false)|].
    case_bool_decide as Hminus; [subst; by apply (Hbody Minus l' true)|].
    by apply (Hbody NoSign (a :: l') false).
Qed.

(** On an ASCII text [int] returns [z] exactly when the text is a literal
    of value [z] whose digits the limit allows. *)
Lemma py_int_ascii py text z :
  is_ascii_text text = true →
  py_int py text = inr z
  ↔ int_literal text z ∧ exceeds_limit py (digit_chars text) = false.
Proof.
  intros Hascii. unfold py_int. rewrite Hascii. split.
  - apply int_ascii_sound.
  - intros [Hlit Hlimit]. by apply int_ascii_complete.
Qed.
End int_literal.



(** * Further properties of the code *)

(** ** [update_row] *)

(** X1. [update_row] checks the index first, then the arity, then the
    types, and a failed check leaves the table as it was: an index below
    zero or at or past the row count raises [IndexError] whatever the
    values are; with the index in range a wrong number of values raises
    the arity error; with the arity right the first value that fails
    [isinstance] raises the type error of its column. *)
Theorem update_row_checks_in_order (t : DynamicTable) (i : Z) (values : list value) :
  (i < 0 ∨ Z.of_nat (length (rows t)) ≤ i →
     update_row t i values = (Raised (IndexError RowIndexOutOfBounds), t))
  ∧ (0 ≤ i < Z.of_nat (length (rows t)) →
     length values ≠ length (column_info t) →
     update_row t i values = (Raised (ValueError ArityMsg), t))
  ∧ (∀ k c ty v,
       0 ≤ i < Z.of_nat (length (rows t)) →
       length values = length (column_info t) →
       column_info t !! k = Some (c, ty) →
       values !! k = Some v →
       isinstance v ty = false →
       (∀ j c' ty' v', (j < k)%nat → column_info t !! j = Some (c', ty') →
          values !! j = Some v' → isinstance v' ty' = true) →
       update_row t i values
       = (Raised (ValueError (InvalidType c ty (type_of v))), t)).
Proof.
  split; [|split].
  - intros Hi. unfold update_row.
    destruct (bool_decide (i < 0) || _) eqn:Hrange; [done|].
    apply orb_false_iff in Hrange as [?%bool_decide_eq_false ?%bool_decide_eq_false].
    lia.
  - intros Hi Hlen. unfold update_row.
    rewrite (bool_decide_eq_false_2 (i < 0)); [|lia].
    rewrite (bool_decide_eq_false_2 (_ ≤ i)); [|lia]. simpl.
    by rewrite bool_decide_eq_true_2.
  - intros k c ty v Hi Hlen Hc Hv Hbad Hpre. unfold update_row.
    rewrite (bool_decide_eq_false_2 (i < 0)); [|lia].
    rewrite (bool_decide_eq_false_2 (_ ≤ i)); [|lia]. simpl.
    rewrite bool_decide_eq_false_2; [|by intros []].
    rewrite (validate_first_mismatch _ 0 values k c ty v); try done. lia.
Qed.

Lemma update_row_checks_in_order_witness :
  update_row table (-1) [] = (Raised (IndexError RowIndexOutOfBounds), table)
  ∧ update_row table 4 [] = (Raised (IndexError RowIndexOutOfBounds), table)
  ∧ update_row table 3 [VStr "Dan"] = (Raised (ValueError ArityMsg), table)
  ∧ update_row table 0 [VStr "Dan"; VStr "31"; VInt 5; VBool true]
    = (Raised (ValueError (InvalidType "Age" PyInt PyStr)), table).
Proof.
  split; [|split; [|split]].
  - apply (update_row_checks_in_order table (-1) []). left. lia.
  - apply (update_row_checks_in_order table 4 []). right. vm_compute. discriminate.
  - apply (update_row_checks_in_order table 3 [VStr "Dan"]).
    + vm_compute. split; [discriminate | reflexivity].
    + vm_compute. discriminate.
  - apply (proj2 (proj2 (update_row_checks_in_order table 0
             [VStr "Dan"; VStr "31"; VInt 5; VBool true])) 1%nat "Age" PyInt (VStr "31"));
      try reflexivity.
    + vm_compute. split; [discriminate | reflexivity].
    + intros [|j] c' ty' v' Hj; [|lia]. intros [= <- <-] [= <-]. reflexivity.
Defined.

(** X2. A successful [update_row] replaces the row at the index wholesale:
    with the index in range and every value passing its column's check,
    the call returns, the schema and the number of rows are as before,
    every other row is untouched, and the row at the index is the dict of
    the column names zipped with the values, whatever the old row held. *)
Theorem update_row_replaces (t : DynamicTable) (i : Z) (values : list value) :
  0 ≤ i < Z.of_nat (length (rows t)) →
  Forall2 (λ col v, isinstance v col.2 = true) (column_info t) values →
  ∃ t', update_row t i values = (Returned, t')
        ∧ column_info t' = column_info t
        ∧ length (rows t') = length (rows t)
        ∧ rows t' !! Z.to_nat i = Some (dict_zip (column_names t) values)
        ∧ ∀ j, j ≠ Z.to_nat i → rows t' !! j = rows t !! j.
Proof.
  intros Hi Hall. pose proof (Forall2_length _ _ _ Hall) as Hlen.
  unfold update_row.
  rewrite (bool_decide_eq_false_2 (i < 0)); [|lia].
  rewrite (bool_decide_eq_false_2 (_ ≤ i)); [|lia]. simpl.
  rewrite bool_decide_eq_false_2; [|by intros []].
  rewrite validate_all_pass; rewrite drop_0; [|done].
  unfold list_setitem. rewrite py_index_in_range; [|done].
  eexists. split; [done|]. simpl. split; [done|].
  split; [apply length_insert|]. split.
  - apply list_lookup_insert_eq. lia.
  - intros j Hj. by apply list_lookup_insert_ne.
Qed.

Lemma update_row_replaces_witness :
  ∃ t', update_row table 2 [VStr "Dan"; VInt 31; VStr "Oslo"; VBool true] = (Returned, t')
        ∧ column_info t' = column_info table
        ∧ length (rows t') = length (rows table)
        ∧ rows t' !! Z.to_nat 2
          = Some (dict_zip (column_names table) [VStr "Dan"; VInt 31; VStr "Oslo"; VBool true])
        ∧ ∀ j, j ≠ Z.to_nat 2 → rows t' !! j = rows table !! j.
Proof.
  apply (update_row_replaces table 2).
  - vm_compute. split; [discriminate | reflexivity].
  - repeat constructor.
Defined.

(** ** [add_column] and [delete_column] *)

(** X3. [add_column] with a name the schema does not have returns; the new
    column is the last of the schema and the others keep their places; the
    rows are as many as before, and each one binds the new name to [None]
    and every other name as it did. *)
Theorem add_column_effect (t : DynamicTable) (n : string) (ty : pyclass) :
  n ∉ column_names t →
  ∃ t', add_column t n ty = (Returned, t')
        ∧ column_info t' = column_info t ++ [(n, ty)]
        ∧ length (rows t') = length (rows t)
        ∧ ∀ j row, rows t !! j = Some row →
            ∃ row', rows t' !! j = Some row'
                    ∧ row' !! n = Some VNone
                    ∧ ∀ c, c ≠ n → row' !! c = row !! c.
Proof.
  intros Hfresh. unfold add_column. rewrite bool_decide_eq_false_2; [|done].
  eexists. split; [done|]. simpl. split; [done|]. split; [apply length_fmap|].
  intros j row Hrow. exists (<[n := VNone]> row).
  rewrite list_lookup_fmap, Hrow. split; [done|].
  split; [apply lookup_insert_eq|]. intros c Hc. by apply lookup_insert_ne.
Qed.

Lemma add_column_effect_witness :
  ∃ t', add_column table "Score" PyInt = (Returned, t')
        ∧ column_info t' = column_info table ++ [("Score", PyInt)]
        ∧ length (rows t') = length (rows table)
        ∧ ∀ j row, rows table !! j = Some row →
            ∃ row', rows t' !! j = Some row'
                    ∧ row' !! "Score" = Some VNone
                    ∧ ∀ c, c ≠ "Score" → row' !! c = row !! c.
Proof.
  apply (add_column_effect table "Score" PyInt).
  apply (bool_decide_unpack _). vm_compute. exact I.
Defined.

Lemma filter_fresh_name (cols : list (string * pyclass)) n :
  n ∉ cols.*1 → filter (λ col, col.1 ≠ n) cols = cols.
Proof.
  induction cols as [|[c ty] cols IH]; intros Hn; [done|].
  simpl in Hn. apply not_elem_of_cons in Hn as [Hne Hn].
  rewrite filter_cons_True; [|by intros ?]. by rewrite IH.
Qed.

Lemma delete_filter_NoDup (cols : list (string * pyclass)) i n :
  NoDup cols.*1 → cols.*1 !! i = Some n →
  delete i cols = filter (λ col, col.1 ≠ n) cols.
Proof.
  revert i. induction cols as [|[c ty] cols IH]; intros i Hnd Hi; [done|].
  simpl in Hnd. apply NoDup_cons in Hnd as [Hnotin Hnd].
  destruct i as [|i]; simplify_eq/=.
  - rewrite filter_cons_False; [|by intros []]. by rewrite filter_fresh_name.
  - rewrite filter_cons_True.
    + by rewrite (IH i).
    + simpl. intros ->. apply Hnotin. by eapply list_elem_of_lookup_2.
Qed.

(** X4. On a table with unique column names whose rows match the schema,
    [delete_column] of a column the schema has returns; the schema is the
    old one without that column, the other columns keeping their types
    and relative order; the rows are as many as before and each has lost
    that key and nothing else. *)
Theorem delete_column_effect (t : DynamicTable) (n : string) :
  unique_names t → row_keys_match t → n ∈ column_names t →
  ∃ t', delete_column t n = (Returned, t')
        ∧ column_info t' = filter (λ col, col.1 ≠ n) (column_info t)
        ∧ rows t' = delete n <$> rows t
        ∧ ∀ j row, rows t !! j = Some row →
            ∃ row', rows t' !! j = Some row'
                    ∧ row' !! n = None
                    ∧ ∀ c, c ≠ n → row' !! c = row !! c.
Proof.
  intros Hnd Hinv Hin. unfold delete_column.
  rewrite bool_decide_eq_true_2; [|done]. simpl.
  destruct (list_index_Some _ _ Hin) as (i & -> & Hi & _).
  rewrite del_key_rows_present; cycle 1.
  { eapply Forall_impl; [exact Hinv|]. intros row Hdom. simpl in Hdom.
    apply elem_of_dom. rewrite Hdom. by apply elem_of_list_to_set. }
  eexists. split; [done|]. simpl.
  split; [by apply delete_filter_NoDup|]. split; [done|].
  intros j row Hrow. exists (delete n row).
  rewrite list_lookup_fmap, Hrow. split; [done|].
  split; [apply lookup_delete_eq|]. intros c Hc. by apply lookup_delete_ne.
Qed.

Lemma delete_column_effect_witness :
  ∃ t', delete_column table "City" = (Returned, t')
        ∧ column_info t' = filter (λ col, col.1 ≠ "City") (column_info table)
        ∧ rows t' = delete "City" <$> rows table
        ∧ ∀ j row, rows table !! j = Some row →
            ∃ row', rows t' !! j = Some row'
                    ∧ row' !! "City" = None
                    ∧ ∀ c, c ≠ "City" → row' !! c = row !! c.
Proof.
  apply (delete_column_effect table "City").
  - apply (bool_decide_unpack _). vm_compute. exact I.
  - unfold row_keys_match. apply (bool_decide_unpack _). vm_compute. exact I.
  - apply (bool_decide_unpack _). vm_compute. exact I.
Defined.

Lemma del_key_rows_missing n (rws : list (gmap string value)) :
  Exists (λ row, row !! n = None) rws →
  ∃ rws', del_key_rows n rws = (rws', Some (KeyError n)) ∧ length rws' = length rws.
Proof.
  induction rws as [|row rest IH]; intros Hex; [by apply Exists_nil in Hex|].
  simpl. destruct (row !! n) as [v|] eqn:Hrow; [|by eexists].
  apply Exists_cons in Hex as [Hhead|Htail]; [congruence|].
  destruct (IH Htail) as (rest' & -> & Hlen). eexists. split; [done|].
  simpl. by rewrite Hlen.
Qed.

(** X5. [delete_column] is not all or nothing on a table that has a row
    without the column's key: the schema entry is removed before the rows
    are visited, so the call raises [KeyError] for the name and leaves a
    table whose schema is one column shorter. *)
Theorem delete_column_not_atomic (t : DynamicTable) (n : string) :
  n ∈ column_names t →
  Exists (λ row : gmap string value, row !! n = None) (rows t) →
  ∃ t', delete_column t n = (Raised (KeyError n), t')
        ∧ S (length (column_info t')) = length (column_info t)
        ∧ length (rows t') = length (rows t).
Proof.
  intros Hin Hex. unfold delete_column.
  rewrite bool_decide_eq_true_2; [|done]. simpl.
  destruct (list_index_Some _ _ Hin) as (i & -> & Hi & _).
  destruct (del_key_rows_missing _ _ Hex) as (rws' & -> & Hlen).
  eexists. split; [done|]. simpl. split; [|done].
  apply lookup_lt_Some in Hi. unfold column_names in Hi. rewrite length_fmap in Hi.
  rewrite length_delete; [lia|]. by apply lookup_lt_is_Some_2.
Qed.

(** X6. The constructor accepts a schema that names a column twice, and
    [delete_column] then breaks the row invariant: on a table with at
    least one row, rows matching the schema and a name at two positions of
    the schema, deleting that name returns, the name is still a column,
    and no row has it as a key any more. *)
Theorem duplicate_name_breaks_rows (t : DynamicTable) (n : string) (i j : nat) :
  i ≠ j →
  column_names t !! i = Some n → column_names t !! j = Some n →
  row_keys_match t → rows t ≠ [] →
  ∃ t', delete_column t n = (Returned, t')
        ∧ n ∈ column_names t'
        ∧ Forall (λ row : gmap string value, row !! n = None) (rows t')
        ∧ ¬ row_keys_match t'.
Proof.
  intros Hij Hi Hj Hinv Hrows.
  assert (n ∈ column_names t) as Hin by by eapply list_elem_of_lookup_2.
  unfold delete_column. rewrite bool_decide_eq_true_2; [|done]. simpl.
  destruct (list_index_Some _ _ Hin) as (i0 & -> & Hi0 & _).
  rewrite del_key_rows_present; cycle 1.
  { eapply Forall_impl; [exact Hinv|]. intros row Hdom. simpl in Hdom.
    apply elem_of_dom. rewrite Hdom. by apply elem_of_list_to_set. }
  assert (∀ k, k ≠ i0 → column_names t !! k = Some n →
               n ∈ delete i0 (column_names t)) as Hkeep.
  { intros k Hk Hlook. destruct (decide (k < i0)%nat).
    - apply (list_elem_of_lookup_2 _ k). by rewrite list_lookup_delete_lt.
    - apply (list_elem_of_lookup_2 _ (pred k)). rewrite list_lookup_delete_ge; [|lia].
      by replace (S (pred k)) with k by lia. }
  assert (n ∈ delete i0 (column_names t)) as Hstill.
  { destruct (decide (i = i0)) as [->|]; [by apply (Hkeep j) | by apply (Hkeep i)]. }
  assert (Forall (λ row : gmap string value, row !! n = None) (delete n <$> rows t))
    as Hgone.
  { apply Forall_fmap, Forall_true. intros row. apply lookup_delete_eq. }
  eexists. split; [done|]. unfold column_names in *. simpl.
  rewrite list_fmap_delete. split; [done|]. split; [done|].
  unfold row_keys_match, column_names. simpl. rewrite list_fmap_delete.
  destruct (rows t) as [|row rest]; [done|]. simpl.
  intros [Hdom _]%Forall_cons.
  assert (n ∈ dom (delete n row)) as Hbad.
  { rewrite Hdom. by apply elem_of_list_to_set. }
  apply elem_of_dom in Hbad as [v Hv]. by rewrite lookup_delete_eq in Hv.
Qed.

Lemma duplicate_name_breaks_rows_witness :
  let t := (add_row (DynamicTable_init [("a", PyInt); ("a", PyInt)]) [VInt 1; VInt 2]).2 in
  ∃ t', delete_column t "a" = (Returned, t')
        ∧ "a" ∈ column_names t'
        ∧ Forall (λ row : gmap string value, row !! "a" = None) (rows t')
        ∧ ¬ row_keys_match t'.
Proof.
  intros t. apply (duplicate_name_breaks_rows t "a" 0 1); try done.
  unfold row_keys_match. apply (bool_decide_unpack _). vm_compute. exact I.
Defined.

Lemma delete_column_not_atomic_witness :
  let t := run [AddRow [VInt 1; VInt 2]; RemoveColumn "a"]
             (DynamicTable_init [("a", PyInt); ("a", PyInt)]) in
  ∃ t', delete_column t "a" = (Raised (KeyError "a"), t')
        ∧ S (length (column_info t')) = length (column_info t)
        ∧ length (rows t') = length (rows t).
Proof.
  intros t. apply (delete_column_not_atomic t "a").
  - apply (bool_decide_unpack _). vm_compute. exact I.
  - apply Exists_cons_hd. reflexivity.
Defined.

(** ** Rows: insertion, read-back, deletion *)

Lemma add_row_returned (t t' : DynamicTable) (values : list value) :
  add_row t values = (Returned, t') →
  length values = length (column_info t)
  ∧ t' = {| column_info := column_info t;
            rows := rows t ++ [dict_zip (column_names t) values] |}.
Proof.
  unfold add_row. case_bool_decide as Hlen; [done|].
  destruct (validate _ _ _) as [e|vs] eqn:Hval; [done|].
  apply validate_full in Hval as ->; [|done]. by intros [= <-].
Qed.

Lemma add_row_passes (t : DynamicTable) (values : list value) :
  Forall2 (λ col v, isinstance v col.2 = true) (column_info t) values →
  add_row t values
  = (Returned, {| column_info := column_info t;
                  rows := rows t ++ [dict_zip (column_names t) values] |}).
Proof.
  intros Hall. pose proof (Forall2_length _ _ _ Hall) as Hlen. unfold add_row.
  rewrite bool_decide_eq_false_2; [|by intros []].
  by rewrite validate_all_pass; rewrite drop_0.
Qed.

Lemma key_values_bound (cols : list (string * pyclass)) (row : gmap string value)
    (vs : list value) :
  Forall2 (λ col v, row !! col.1 = Some v) cols vs → key_values cols row = inr vs.
Proof.
  induction 1 as [|[c ty] v cols vs Hv _ IH]; simpl in *; [done|]. by rewrite Hv, IH.
Qed.

(** X7. Reading back what [add_row] stored: on a table with unique column
    names, when [add_row] returns, the table has one more row, at the end,
    and the tuple that [remove_duplicates] reads from that row in schema
    order is the list of values that was passed. *)
Theorem add_row_read_back (t t' : DynamicTable) (values : list value) :
  unique_names t →
  add_row t values = (Returned, t') →
  ∃ row, rows t' = rows t ++ [row]
         ∧ column_info t' = column_info t
         ∧ key_values (column_info t') row = inr values.
Proof.
  intros Hnd [Hlen ->]%add_row_returned. eexists. split; [done|]. split; [done|].
  simpl. apply key_values_bound. apply Forall2_same_length_lookup_2; [done|].
  intros i [c ty] v Hc Hv. simpl.
  apply (lookup_dict_zip _ _ i); [done| |done].
  unfold column_names. by rewrite list_lookup_fmap, Hc.
Qed.

Lemma add_row_read_back_witness :
  let values := [VStr "Dan"; VInt 31; VStr "Oslo"; VBool true] in
  ∃ row, rows (add_row table values).2 = rows table ++ [row]
         ∧ column_info (add_row table values).2 = column_info table
         ∧ key_values (column_info (add_row table values).2) row = inr values.
Proof.
  intros values. apply (add_row_read_back table _ values).
  - apply (bool_decide_unpack _). vm_compute. exact I.
  - reflexivity.
Defined.

(** X8. Rows keep their insertion order: a new table followed by one
    [add_row] per value list, each list passing the checks of the schema,
    holds exactly the dicts of those lists, in the order of the calls. *)
Theorem add_rows_in_order (cols : list (string * pyclass)) (vss : list (list value)) :
  Forall (λ vs, Forall2 (λ col v, isinstance v col.2 = true) cols vs) vss →
  run (AddRow <$> vss) (DynamicTable_init cols)
  = {| column_info := cols; rows := dict_zip cols.*1 <$> vss |}.
Proof.
  intros Hall. unfold DynamicTable_init.
  change (dict_zip cols.*1 <$> vss) with ([] ++ (dict_zip cols.*1 <$> vss)).
  generalize (@nil (gmap string value)) as rws.
  induction Hall as [|vs vss Hvs _ IH]; intros rws; simpl.
  - by rewrite app_nil_r.
  - rewrite add_row_passes; [|done]. simpl. unfold column_names. simpl.
    rewrite IH. by rewrite <- app_assoc.
Qed.

Lemma add_rows_in_order_witness :
  run (AddRow <$> [[VStr "Alice"; VInt 25]; [VStr "Bob"; VBool true]])
      (DynamicTable_init [("Name", PyStr); ("Age", PyInt)])
  = {| column_info := [("Name", PyStr); ("Age", PyInt)];
       rows := dict_zip ["Name"; "Age"]
                 <$> [[VStr "Alice"; VInt 25]; [VStr "Bob"; VBool true]] |}.
Proof.
  apply (add_rows_in_order [("Name", PyStr); ("Age", PyInt)]).
  repeat constructor.
Defined.

(** X9. Deleting right after inserting undoes the insertion: when
    [add_row] returns, deleting at index [-1], or at the index that was the
    row count before the insertion, returns the table as it was before
    [add_row]. *)
Theorem add_row_then_delete_last (t t' : DynamicTable) (values : list value) :
  add_row t values = (Returned, t') →
  delete_row t' (-1) = (Returned, t)
  ∧ delete_row t' (Z.of_nat (length (rows t))) = (Returned, t).
Proof.
  intros [_ ->]%add_row_returned.
  unfold delete_row, list_delitem, py_index. cbn [rows column_info].
  rewrite length_app. cbn [length]. split.
  - rewrite bool_decide_eq_false_2; [|lia]. rewrite bool_decide_eq_true_2; [|lia].
    replace (Z.to_nat (-1 + Z.of_nat (length (rows t) + 1))) with (length (rows t)) by lia.
    rewrite (delete_middle (rows t) []), app_nil_r. by destruct t.
  - rewrite bool_decide_eq_true_2; [|lia]. rewrite Nat2Z.id.
    rewrite (delete_middle (rows t) []), app_nil_r. by destruct t.
Qed.

Lemma add_row_then_delete_last_witness :
  let t' := (add_row table [VStr "Dan"; VInt 31; VStr "Oslo"; VBool true]).2 in
  delete_row t' (-1) = (Returned, table)
  ∧ delete_row t' (Z.of_nat (length (rows table))) = (Returned, table).
Proof.
  intros t'.
  apply (add_row_then_delete_last table t' [VStr "Dan"; VInt 31; VStr "Oslo"; VBool true]).
  reflexivity.
Defined.

(** X10. Row deletion at an index from minus the row count up to the row
    count minus one returns; the position deleted is the index modulo the
    row count; the rows before it stay where they were and every later
    row moves down by one. *)
Theorem delete_row_shifts (t : DynamicTable) (i : Z) :
  let n := Z.of_nat (length (rows t)) in
  - n ≤ i < n →
  ∃ t', delete_row t i = (Returned, t')
        ∧ column_info t' = column_info t
        ∧ S (length (rows t')) = length (rows t)
        ∧ (∀ j, (Z.of_nat j < i `mod` n) → rows t' !! j = rows t !! j)
        ∧ (∀ j, (i `mod` n ≤ Z.of_nat j) → rows t' !! j = rows t !! S j).
Proof.
  intros n Hi. unfold delete_row, list_delitem, py_index. fold n.
  assert (∃ k, (if bool_decide (0 ≤ i < n) then Some (Z.to_nat i)
                else if bool_decide (- n ≤ i < 0) then Some (Z.to_nat (i + n))
                else None) = Some k
               ∧ Z.of_nat k = i `mod` n ∧ (k < length (rows t))%nat) as (k & -> & Hk & Hlt).
  { case_bool_decide as H0.
    - exists (Z.to_nat i). split; [done|]. rewrite Z.mod_small; [|done]. lia.
    - rewrite bool_decide_eq_true_2; [|lia]. exists (Z.to_nat (i + n)). split; [done|].
      rewrite <- (Z.mod_add i 1 n); [|lia]. rewrite Z.mod_small; lia. }
  eexists. split; [done|]. simpl. split; [done|].
  split; [rewrite length_delete; [lia|by apply lookup_lt_is_Some_2]|].
  rewrite <- Hk. split.
  - intros j Hj. apply list_lookup_delete_lt. lia.
  - intros j Hj. apply list_lookup_delete_ge. lia.
Qed.

Lemma delete_row_shifts_witness :
  ∃ t', delete_row table (-3) = (Returned, t')
        ∧ column_info t' = column_info table
        ∧ S (length (rows t')) = length (rows table)
        ∧ (∀ j, (Z.of_nat j < (-3) `mod` Z.of_nat (length (rows table))) →
             rows t' !! j = rows table !! j)
        ∧ (∀ j, ((-3) `mod` Z.of_nat (length (rows table)) ≤ Z.of_nat j) →
             rows t' !! j = rows table !! S j).
Proof.
  apply (delete_row_shifts table (-3)). vm_compute. split; [discriminate | reflexivity].
Defined.

(** ** The type invariant *)

Section well_typed.
Implicit Types (t : DynamicTable) (row : gmap string value).

Lemma validate_inr_passes (cols : list (string * pyclass)) k (values vs : list value) :
  validate cols k values = inr vs →
  Forall2 (λ col v, isinstance v col.2 = true) cols vs.
Proof.
  revert k vs. induction cols as [|[c ty] cols IH]; intros k vs; simpl.
  - intros [= <-]. constructor.
  - destruct (values !! k) as [v|]; [|done].
    destruct (isinstance v ty) eqn:Hv; [|done].
    destruct (validate cols (S k) values) as [e|vs'] eqn:Hrec; [done|].
    intros [= <-]. constructor; [done|]. by eapply IH.
Qed.

Lemma lookup_foldl_insert_inv (d : gmap string value) (keys : list string)
    (vs : list value) c v :
  foldl (λ d kv, <[kv.1 := kv.2]> d) d (zip keys vs) !! c = Some v →
  d !! c = Some v ∨ ∃ i, keys !! i = Some c ∧ vs !! i = Some v.
Proof.
  revert d vs. induction keys as [|k keys IH]; intros d [|v0 vs]; simpl; auto.
  intros [Hd|(i & Hk & Hv)]%IH.
  - destruct (decide (k = c)) as [->|Hne].
    + rewrite lookup_insert_eq in Hd. injection Hd as ->. right. by exists 0%nat.
    + rewrite lookup_insert_ne in Hd; auto.
  - right. by exists (S i).
Qed.

Lemma lookup_dict_zip_inv (keys : list string) (vs : list value) c v :
  dict_zip keys vs !! c = Some v → ∃ i, keys !! i = Some c ∧ vs !! i = Some v.
Proof. intros [Hd|?]%lookup_foldl_insert_inv; [by rewrite lookup_empty in Hd | done]. Qed.

(** The dict of a validated value list is well typed for a schema with
    unique names. *)
Lemma dict_zip_well_typed (cols : list (string * pyclass)) (values : list value) c ty v :
  NoDup cols.*1 →
  Forall2 (λ col v, isinstance v col.2 = true) cols values →
  (c, ty) ∈ cols → dict_zip cols.*1 values !! c = Some v →
  isinstance v ty = true.
Proof.
  intros Hnd Hall Hin (i & Hi & Hv)%lookup_dict_zip_inv.
  apply list_elem_of_lookup_1 in Hin as [j Hj].
  assert (cols.*1 !! j = Some c) as Hj' by by rewrite list_lookup_fmap, Hj.
  assert (i = j) as -> by by eapply NoDup_lookup.
  by apply (Forall2_lookup_lr _ _ _ j (c, ty) v Hall).
Qed.

Lemma del_key_rows_lookups n (rws : list (gmap string value)) :
  Forall2 (λ row' row, ∀ c v, row' !! c = Some v → row !! c = Some v)
    (del_key_rows n rws).1 rws.
Proof.
  induction rws as [|row rest IH]; simpl; [constructor|].
  destruct (row !! n) as [v0|].
  - destruct (del_key_rows n rest) as [rest' e]. simpl in *. constructor; [|done].
    intros c v Hc. destruct (decide (n = c)) as [->|Hne].
    + by rewrite lookup_delete_eq in Hc.
    + by rewrite lookup_delete_ne in Hc.
  - simpl. apply Forall2_same_length_lookup_2; [done|]. intros; by simplify_eq.
Qed.

Lemma update_row_returned t t' i (values : list value) :
  update_row t i values = (Returned, t') →
  Forall2 (λ col v, isinstance v col.2 = true) (column_info t) values
  ∧ ∃ k, t' = {| column_info := column_info t;
                 rows := <[k := dict_zip (column_names t) values]> (rows t) |}.
Proof.
  unfold update_row. destruct (_ || _); [done|].
  case_bool_decide as Hlen; [done|].
  destruct (validate _ _ _) as [e|vs] eqn:Hval; [done|].
  pose proof (validate_inr_passes _ _ _ _ Hval) as Hall.
  apply validate_full in Hval as ->; [|done].
  unfold list_setitem. destruct (py_index _ _) as [k|]; [|done].
  intros [= <-]. eauto.
Qed.

Lemma add_row_returned_passes t t' (values : list value) :
  add_row t values = (Returned, t') →
  Forall2 (λ col v, isinstance v col.2 = true) (column_info t) values.
Proof.
  unfold add_row. case_bool_decide as Hlen; [done|].
  destruct (validate _ _ _) as [e|vs] eqn:Hval; [done|].
  pose proof (validate_inr_passes _ _ _ _ Hval) as Hall.
  apply validate_full in Hval as ->; done.
Qed.

Lemma table_op_unchanged_on_raise op t e t' :
  (∀ n, op ≠ RemoveColumn n) → apply_op op t = (Raised e, t') → t' = t.
Proof.
  intros Hop. destruct op as [n ty|n|vs|i vs|i|]; simpl.
  - unfold add_column. case_bool_decide; congruence.
  - by destruct (Hop n).
  - unfold add_row. case_bool_decide; [congruence|].
    destruct (validate _ _ _); congruence.
  - unfold update_row. destruct (_ || _); [congruence|].
    case_bool_decide; [congruence|].
    destruct (validate _ _ _); [congruence|].
    destruct (list_setitem _ _ _); congruence.
  - unfold delete_row. destruct (list_delitem _ _); congruence.
  - unfold remove_duplicates. destruct (dedup_loop _ _ _ _); congruence.
Qed.

Lemma apply_op_well_typed op t :
  unique_names t → rows_well_typed t → rows_well_typed (apply_op op t).2.
Proof.
  intros Hnd Hty. unfold rows_well_typed in *.
  destruct op as [n ty|n|vs|i vs|i|]; simpl.
  - unfold add_column. case_bool_decide as Hin; [done|]. simpl.
    apply Forall_fmap. eapply Forall_impl; [exact Hty|].
    intros row Hrow c ty' v Hc Hv. simpl in Hv.
    destruct (decide (n = c)) as [->|Hne].
    + rewrite lookup_insert_eq in Hv. injection Hv as <-. by right.
    + rewrite lookup_insert_ne in Hv; [|done].
      apply elem_of_app in Hc as [Hc|Hc%list_elem_of_singleton]; [by eapply Hrow|].
      by simplify_eq.
  - unfold delete_column. case_bool_decide as Hin; simpl; [|done].
    destruct (list_index _ _) as [i|]; [|done].
    pose proof (del_key_rows_lookups n (rows t)) as Hsub.
    destruct (del_key_rows n (rows t)) as [rws' e]. simpl in *.
    apply Forall_forall. intros row' Hrow' c ty v Hc Hv.
    apply list_elem_of_lookup_1 in Hrow' as [j Hj].
    destruct (Forall2_lookup_l _ _ _ _ _ Hsub Hj) as (row & Hrow & Himp).
    eapply (Forall_lookup_1 _ _ _ _ Hty Hrow); [|by apply Himp].
    by eapply list_elem_of_delete_inv.
  - destruct (add_row t vs) as [[|e] t'] eqn:Hadd; simpl.
    + pose proof (add_row_returned_passes _ _ _ Hadd) as Hall.
      apply add_row_returned in Hadd as [_ ->]. simpl.
      apply Forall_app. split; [done|]. apply Forall_singleton.
      intros c ty v Hc Hv. left. by eapply dict_zip_well_typed.
    + by rewrite (table_op_unchanged_on_raise (AddRow vs) t e t').
  - destruct (update_row t i vs) as [[|e] t'] eqn:Hupd; simpl.
    + apply update_row_returned in Hupd as [Hall [k ->]]. simpl.
      apply Forall_insert; [done|].
      intros c ty v Hc Hv. left. by eapply dict_zip_well_typed.
    + by rewrite (table_op_unchanged_on_raise (UpdateRow i vs) t e t').
  - unfold delete_row, list_delitem. destruct (py_index _ _); [|done]. simpl.
    by apply Forall_delete.
  - unfold remove_duplicates.
    destruct (dedup_loop _ _ _ _) as [e|out] eqn:Hloop; [done|]. simpl.
    destruct (dedup_loop_sublist _ _ _ _ _ Hloop) as (kept & -> & Hsub).
    by eapply Forall_sublist_of.
Qed.

Lemma apply_op_unique_names op t : unique_names t → unique_names (apply_op op t).2.
Proof.
  intros Hnd. unfold unique_names, column_names in *.
  destruct op as [n ty|n|vs|i vs|i|]; simpl.
  - unfold add_column. case_bool_decide as Hin; [done|]. simpl.
    rewrite fmap_app. apply NoDup_app. split; [done|].
    split; [|apply NoDup_singleton]. intros x Hx ->%list_elem_of_singleton. done.
  - unfold delete_column. case_bool_decide as Hin; simpl; [|done].
    destruct (list_index _ _) as [i|]; [|done].
    destruct (del_key_rows n (rows t)) as [rws' e]. simpl.
    rewrite list_fmap_delete. exact (sublist_NoDup _ _ Hnd (sublist_delete _ _)).
  - destruct (add_row t vs) as [[|e] t'] eqn:Hadd; simpl.
    + by apply add_row_returned in Hadd as [_ ->].
    + by rewrite (table_op_unchanged_on_raise (AddRow vs) t e t').
  - destruct (update_row t i vs) as [[|e] t'] eqn:Hupd; simpl.
    + by apply update_row_returned in Hupd as [_ [k ->]].
    + by rewrite (table_op_unchanged_on_raise (UpdateRow i vs) t e t').
  - unfold delete_row. by destruct (list_delitem _ _).
  - unfold remove_duplicates. by destruct (dedup_loop _ _ _ _).
Qed.
End well_typed.

(** X11. The type invariant: starting from a new table whose schema has
    unique column names, after every sequence of the six table operations
    every value that a row holds for a column of the schema is an instance
    of the column's type, or the [None] that [add_column] stored. *)
Theorem rows_stay_well_typed (cols : list (string * pyclass)) (ops : list table_op) :
  NoDup cols.*1 → rows_well_typed (run ops (DynamicTable_init cols)).
Proof.
  intros Hnd.
  assert (unique_names (DynamicTable_init cols)) as Hu by done.
  assert (rows_well_typed (DynamicTable_init cols)) as Hty by apply Forall_nil_2.
  revert Hu Hty. generalize (DynamicTable_init cols) as t.
  induction ops as [|op ops IH]; intros t Hu Hty; simpl; [done|].
  apply IH; [by apply apply_op_unique_names | by apply apply_op_well_typed].
Qed.

Lemma rows_stay_well_typed_witness :
  rows_well_typed
    (run [AddRow [VStr "Alice"; VInt 25; VStr "New York"; VBool false];
          AddColumn "Score" PyInt;
          UpdateRow 0 [VStr "Bob"; VBool true; VStr "Rome"; VBool true; VInt 7];
          RemoveColumn "City";
          AddRow [VStr "Eve"; VInt 1; VBool true; VInt 7];
          RemoveDuplicates]
       (DynamicTable_init table_info)).
Proof.
  apply (rows_stay_well_typed table_info).
  apply (bool_decide_unpack _). vm_compute. exact I.
Defined.

(** X12. Any of the six table operations except [delete_column], when it
    raises, leaves the table exactly as it was, on every table, whether or
    not the table satisfies the invariants. *)
Theorem table_ops_atomic_except_delete_column (op : table_op) (t t' : DynamicTable)
    (e : exn) :
  (∀ n, op ≠ RemoveColumn n) → apply_op op t = (Raised e, t') → t' = t.
Proof. apply table_op_unchanged_on_raise. Qed.

Lemma table_ops_atomic_except_delete_column_witness :
  (update_row table 7 []).2 = table.
Proof.
  apply (table_ops_atomic_except_delete_column (UpdateRow 7 []) table _
           (IndexError RowIndexOutOfBounds)); [done | reflexivity].
Defined.

(** ** [remove_duplicates]: tables without duplicates, rows without a key *)

Lemma first_occurrences_fixed (cols : list (string * pyclass))
    (earlier todo : list (gmap string value)) :
  Forall (λ r, tuple_in (row_tuple cols r) (row_tuple cols <$> earlier) = false) todo →
  distinct_tuples cols todo →
  first_occurrences cols earlier todo = todo.
Proof.
  revert earlier. induction todo as [|row rest IH]; intros E Hnew Hdist; [done|].
  apply Forall_cons in Hnew as [Hrow Hrest]. destruct Hdist as [Hother Hdist].
  simpl. rewrite Hrow. f_equal. apply IH; [|done].
  apply Forall_forall. intros r Hr.
  rewrite fmap_app, tuple_in_app. simpl. rewrite orb_false_r.
  rewrite (proj1 (Forall_forall _ _) Hrest r Hr). simpl.
  rewrite tuple_eq_sym. by apply (proj1 (Forall_forall _ _) Hother r Hr).
Qed.

(** X13. On a table whose rows match the schema, [remove_duplicates]
    leaves the table exactly as it is if and only if no row has the same
    tuple of values, in schema order, as a row before it. *)
Theorem remove_duplicates_noop_iff_distinct (t : DynamicTable) :
  row_keys_match t →
  remove_duplicates t = (Returned, t)
  ↔ distinct_tuples (column_info t) (rows t).
Proof.
  intros Hinv.
  assert (remove_duplicates t
          = (Returned, {| column_info := column_info t;
                          rows := first_occurrences (column_info t) [] (rows t) |}))
    as Hrun.
  { unfold remove_duplicates.
    rewrite (dedup_loop_first_occurrences _ (rows t) [] [] []); [done| |done].
    eapply Forall_impl; [exact Hinv|]. intros row. apply row_has_columns. }
  rewrite Hrun. split.
  - intros Heq. destruct t as [cols rws]. simpl in *. injection Heq as Heq.
    rewrite <- Heq. apply first_occurrences_distinct.
  - intros Hdist. rewrite first_occurrences_fixed; [by destruct t| |done].
    by apply Forall_true.
Qed.

Lemma remove_duplicates_noop_iff_distinct_witness :
  let t := (delete_row table 2).2 in
  remove_duplicates t = (Returned, t) ↔ distinct_tuples (column_info t) (rows t).
Proof.
  intros t. apply (remove_duplicates_noop_iff_distinct t).
  unfold row_keys_match. apply (bool_decide_unpack _). vm_compute. exact I.
Defined.

Lemma key_values_inl (cols : list (string * pyclass)) (row : gmap string value) e :
  key_values cols row = inl e → ∃ c, e = KeyError c ∧ c ∈ cols.*1 ∧ row !! c = None.
Proof.
  induction cols as [|[c ty] cols IH]; simpl; [done|].
  destruct (row !! c) as [v|] eqn:Hc.
  - destruct (key_values cols row) as [e'|vs]; [|done].
    intros [= <-]. destruct (IH eq_refl) as (c' & -> & Hin & Hnone).
    exists c'. split; [done|]. split; [by right | done].
  - intros [= <-]. exists c. split; [done|]. split; [by left | done].
Qed.

Lemma key_values_inr (cols : list (string * pyclass)) (row : gmap string value) vs :
  key_values cols row = inr vs → Forall (λ col, is_Some (row !! col.1)) cols.
Proof.
  revert vs. induction cols as [|[c ty] cols IH]; intros vs; simpl; [constructor|].
  destruct (row !! c) as [v|] eqn:Hc; [|done].
  destruct (key_values cols row) as [e'|vs'] eqn:Hrec; [done|].
  intros _. constructor; [simpl; by rewrite Hc | by eapply IH].
Qed.

Lemma dedup_loop_missing_key (cols : list (string * pyclass))
    (todo : list (gmap string value)) seen unique :
  Exists (λ row, Exists (λ col : string * pyclass, row !! col.1 = None) cols) todo →
  ∃ c, c ∈ cols.*1 ∧ dedup_loop cols todo seen unique = inl (KeyError c).
Proof.
  revert seen unique. induction todo as [|row rest IH]; intros seen unique Hex;
    [by apply Exists_nil in Hex|].
  simpl. destruct (key_values cols row) as [e|key] eqn:Hkey.
  - destruct (key_values_inl _ _ _ Hkey) as (c & -> & Hin & _). eauto.
  - apply Exists_cons in Hex as [Hhead|Htail].
    + apply key_values_inr in Hkey. apply Exists_exists in Hhead as (col & Hcol & Hnone).
      rewrite Forall_forall in Hkey. destruct (Hkey col Hcol) as [v Hv]. congruence.
    + destruct (negb _); by apply IH.
Qed.

(** X14. On a table with a row that lacks the key of some column,
    [remove_duplicates] raises [KeyError] for a column of the schema and
    leaves the table as it was; the mutation of the access layer catches
    [ValueError] only, so it does not answer: the [KeyError] escapes, with
    the database unchanged. *)
Theorem remove_duplicates_missing_key (t : DynamicTable) :
  Exists (λ row : gmap string value,
            Exists (λ col : string * pyclass, row !! col.1 = None) (column_info t))
         (rows t) →
  ∃ c, c ∈ column_names t
       ∧ remove_duplicates t = (Raised (KeyError c), t)
       ∧ ∀ database table_name,
           tables database !! table_name = Some t →
           RemoveDuplicatesMutation_mutate database table_name
           = (inl (KeyError c), database).
Proof.
  intros Hex.
  destruct (dedup_loop_missing_key _ _ [] [] Hex) as (c & Hin & Hloop).
  assert (remove_duplicates t = (Raised (KeyError c), t)) as Hrun.
  { unfold remove_duplicates. by rewrite Hloop. }
  exists c. split; [done|]. split; [done|].
  intros database table_name Hlook. unfold RemoveDuplicatesMutation_mutate.
  rewrite Hlook, Hrun. simpl. unfold set_table. rewrite insert_id; [|done].
  by destruct database.
Qed.

Lemma remove_duplicates_missing_key_witness :
  let t := run [AddRow [VInt 1; VInt 2]; RemoveColumn "a"]
             (DynamicTable_init [("a", PyInt); ("a", PyInt)]) in
  ∃ c, c ∈ column_names t
       ∧ remove_duplicates t = (Raised (KeyError c), t)
       ∧ ∀ database table_name,
           tables database !! table_name = Some t →
           RemoveDuplicatesMutation_mutate database table_name
           = (inl (KeyError c), database).
Proof.
  intros t. apply (remove_duplicates_missing_key t).
  apply Exists_cons_hd. apply Exists_cons_hd. reflexivity.
Defined.

(** ** [Database] *)

(** X15. Creating a table under a name the database does not have and
    then removing it gives back the database exactly as it was; in
    between, the name is bound to a table with the given schema and no
    rows, and every other name is bound as before. *)
Theorem add_table_then_remove_table (db : Database) (table_name : string)
    (cols : list (string * pyclass)) :
  tables db !! table_name = None →
  ∃ db1, add_table db table_name cols = (Returned, db1)
         ∧ tables db1 !! table_name = Some (DynamicTable_init cols)
         ∧ (∀ other, other ≠ table_name → tables db1 !! other = tables db !! other)
         ∧ remove_table db1 table_name = (Returned, db).
Proof.
  intros Hnone. unfold add_table. rewrite Hnone. eexists. split; [done|]. simpl.
  split; [apply lookup_insert_eq|].
  split; [intros other Hne; by apply lookup_insert_ne|].
  unfold remove_table. simpl. rewrite lookup_insert_eq.
  rewrite delete_insert_id; [|done]. by destruct db.
Qed.

Lemma add_table_then_remove_table_witness :
  ∃ db1, add_table Database_init "Table1" table_info = (Returned, db1)
         ∧ tables db1 !! "Table1" = Some (DynamicTable_init table_info)
         ∧ (∀ other, other ≠ "Table1" →
              tables db1 !! other = tables Database_init !! other)
         ∧ remove_table db1 "Table1" = (Returned, Database_init).
Proof. apply (add_table_then_remove_table Database_init "Table1" table_info). reflexivity. Defined.

(** ** [convert_values] *)

Section conversion.
Context (py : Interpreter).
Implicit Types (cols : list (string * pyclass)) (texts values : list string).

Lemma convert_loop_drop cols k values :
  convert_loop py cols k values = convert_loop py cols 0 (drop k values).
Proof.
  revert k values. induction cols as [|[c ty] cols IH]; intros k values; simpl; [done|].
  rewrite lookup_drop, Nat.add_0_r. destruct (values !! k) as [text|]; [|done].
  destruct (convert_value py ty text) as [e|v]; [done|].
  rewrite (IH (S k) values), (IH 1%nat (drop k values)), drop_drop.
  by rewrite Nat.add_1_r.
Qed.

Lemma convert_values_cons c ty cols text texts :
  convert_values py ((c, ty) :: cols) (text :: texts)
  = match convert_value py ty text with
    | inl e => inl e
    | inr v =>
        match convert_values py cols texts with
        | inl e => inl e
        | inr converted => inr (v :: converted)
        end
    end.
Proof.
  unfold convert_values. simpl. destruct (convert_value py ty text); [done|].
  by rewrite (convert_loop_drop cols 1).
Qed.

Lemma convert_value_inr col text :
  convertible py col text ↔ ∃ v, convert_value py col.2 text = inr v.
Proof.
  destruct col as [c ty]. unfold convertible. simpl. destruct ty; simpl;
    try (split; [eauto | done]).
  split.
  - intros [z Hz]; [done|]. rewrite Hz. eauto.
  - intros [v Hv] _. destruct (py_int py text) as [m|z] eqn:Hz; [done|]. eauto.
Qed.

Lemma convert_value_inl ty text e :
  convert_value py ty text = inl e →
  ty = PyInt ∧ ∃ m, e = ValueError m ∧ py_int py text = inl m.
Proof.
  destruct ty; simpl; try done.
  destruct (py_int py text) as [m|z]; [|done]. intros [= <-]. eauto.
Qed.

Lemma convert_value_class ty text v :
  convert_value py ty text = inr v →
  type_of v = (if basic_class ty then ty else PyStr)
  ∧ isinstance v ty = basic_class ty.
Proof.
  destruct ty; simpl; try (by intros [= <-]).
  destruct (py_int py text); [done|]. by intros [= <-].
Qed.
End conversion.

(** What holds of the values [convert_values] returns. *)
Lemma convert_values_inr (py : Interpreter) (cols : list (string * pyclass))
    (values : list string) (converted : list value) :
  convert_values py cols values = inr converted →
  (length cols ≤ length values)%nat
  ∧ Forall2 (λ col v, type_of v = (if basic_class col.2 then col.2 else PyStr)
                      ∧ isinstance v col.2 = basic_class col.2) cols converted
  ∧ convert_values py cols (take (length cols) values) = inr converted.
Proof.
  revert values converted. induction cols as [|[c ty] cols IH]; intros values converted.
  - intros [= <-]. split; [simpl; lia|]. split; [constructor | done].
  - destruct values as [|text texts]; [done|].
    rewrite convert_values_cons. simpl take. rewrite convert_values_cons.
    destruct (convert_value py ty text) as [e|v] eqn:Hv; [done|].
    destruct (convert_values py cols texts) as [e|vs] eqn:Hrec; [done|].
    intros [= <-]. destruct (IH _ _ Hrec) as (Hlen & Hall & Htake).
    split; [simpl; lia|]. split; [|by rewrite Htake].
    constructor; [|done]. exact (convert_value_class _ _ _ _ Hv).
Qed.

(** X16. What [convert_values] returns: when it returns, there are at
    least as many texts as columns, the result has one value per column,
    each of the class of its column ([str] for a column type other than
    [str], [int] and [bool]), and it passes the [isinstance] check of
    [add_row] exactly at the columns of type [str], [int] or [bool];
    texts beyond the number of columns are ignored. *)
Theorem convert_values_returns (py : Interpreter) (cols : list (string * pyclass))
    (values : list string) (converted : list value) :
  convert_values py cols values = inr converted →
  (length cols ≤ length values)%nat
  ∧ Forall2 (λ col v, type_of v = (if basic_class col.2 then col.2 else PyStr)
                      ∧ isinstance v col.2 = basic_class col.2) cols converted
  ∧ convert_values py cols (take (length cols) values) = inr converted.
Proof. exact (convert_values_inr py cols values converted). Qed.

Lemma convert_values_returns_witness :
  (length table_info ≤ length ["Al"; "+7"; "Rome"; "yes"; "surplus"])%nat
  ∧ Forall2 (λ col v, type_of v = (if basic_class col.2 then col.2 else PyStr)
                      ∧ isinstance v col.2 = basic_class col.2) table_info
      [VStr "Al"; VInt 7; VStr "Rome"; VBool false]
  ∧ convert_values example_interpreter table_info
      (take (length table_info) ["Al"; "+7"; "Rome"; "yes"; "surplus"])
    = inr [VStr "Al"; VInt 7; VStr "Rome"; VBool false].
Proof.
  apply (convert_values_returns example_interpreter table_info
           ["Al"; "+7"; "Rome"; "yes"; "surplus"]).
  reflexivity.
Defined.

(** The three ways [convert_values] ends: with the converted values, with
    the [ValueError] of [int], with [IndexError]. *)
Lemma convert_values_cases (py : Interpreter) (cols : list (string * pyclass))
    (values : list string) :
  ((length cols ≤ length values)%nat →
   Forall2 (convertible py) cols (take (length cols) values) →
   ∃ converted, convert_values py cols values = inr converted)
  ∧ (∀ i col text,
       cols !! i = Some col → values !! i = Some text →
       ¬ convertible py col text →
       Forall2 (convertible py) (take i cols) (take i values) →
       ∃ m, py_int py text = inl m
            ∧ convert_values py cols values = inl (ValueError m))
  ∧ ((length values < length cols)%nat →
     Forall2 (convertible py) (take (length values) cols) values →
     convert_values py cols values = inl (IndexError ListIndexOutOfRange)).
Proof.
  split; [|split].
  - revert values. induction cols as [|[c ty] cols IH]; intros values Hlen Hall;
      [by eexists|].
    destruct values as [|text texts]; [simpl in Hlen; lia|].
    simpl in Hall. apply Forall2_cons in Hall as [Hhead Hall].
    rewrite convert_values_cons.
    apply convert_value_inr in Hhead as [v Hv']. simpl in Hv'. rewrite Hv'.
    destruct (IH texts) as [vs ->]; [simpl in Hlen; lia | done | by eexists].
  - revert values. induction cols as [|[c ty] cols IH]; intros values i col text Hc Hv Hbad Hpre;
      [done|].
    destruct values as [|text0 texts]; [done|].
    rewrite convert_values_cons. destruct i as [|i]; simplify_eq/=.
    + destruct (convert_value py ty text) as [e|v] eqn:Hconv.
      * apply convert_value_inl in Hconv as (_ & m & -> & Hm). eauto.
      * destruct Hbad. apply (convert_value_inr py (c, ty)). eauto.
    + apply Forall2_cons in Hpre as [Hhead Hpre].
      apply convert_value_inr in Hhead as [v Hv']. simpl in Hv'. rewrite Hv'.
      destruct (IH texts i col text) as (m & Hm & ->); [done..|]. eauto.
  - revert values. induction cols as [|[c ty] cols IH]; intros values Hlen Hall;
      [simpl in Hlen; lia|].
    destruct values as [|text texts]; [done|].
    simpl in Hall. apply Forall2_cons in Hall as [Hhead Hall].
    rewrite convert_values_cons.
    apply convert_value_inr in Hhead as [v Hv']. simpl in Hv'. rewrite Hv'.
    rewrite IH; [done | simpl in Hlen; lia | done].
Qed.

(** X17. What [convert_values] does on every input.  Call a text
    convertible for a column when the column's type is not [int], or
    [int] returns on the text.  [convert_values] returns when there are
    at least as many texts as columns and each of the first texts is
    convertible for its column.  It raises the [ValueError] of [int] for
    the first text that is not convertible, when all texts before it
    are.  It raises [IndexError] when there are fewer texts than columns
    and all of them are convertible. *)
Theorem convert_values_outcome (py : Interpreter) (cols : list (string * pyclass))
    (values : list string) :
  ((length cols ≤ length values)%nat →
   Forall2 (convertible py) cols (take (length cols) values) →
   ∃ converted, convert_values py cols values = inr converted)
  ∧ (∀ i col text,
       cols !! i = Some col → values !! i = Some text →
       ¬ convertible py col text →
       Forall2 (convertible py) (take i cols) (take i values) →
       ∃ m, py_int py text = inl m
            ∧ convert_values py cols values = inl (ValueError m))
  ∧ ((length values < length cols)%nat →
     Forall2 (convertible py) (take (length values) cols) values →
     convert_values py cols values = inl (IndexError ListIndexOutOfRange)).
Proof. exact (convert_values_cases py cols values). Qed.

Lemma convert_values_outcome_witness :
  (∃ converted,
     convert_values example_interpreter table_info ["Al"; " 7 "; "Rome"; "true"]
     = inr converted)
  ∧ (∃ m, py_int example_interpreter "seven" = inl m
          ∧ convert_values example_interpreter table_info ["Al"; "seven"; "Rome"; "true"]
            = inl (ValueError m))
  ∧ convert_values example_interpreter table_info ["Al"; "7"]
    = inl (IndexError ListIndexOutOfRange).
Proof.
  assert (∀ c text, convertible example_interpreter (c, PyStr) text) as Hstr
    by (by intros c text ?).
  assert (∀ text, convertible example_interpreter ("IsStudent", PyBool) text) as Hbool
    by (by intros text ?).
  assert (∀ text z, py_int example_interpreter text = inr z →
                    convertible example_interpreter ("Age", PyInt) text) as Hint.
  { intros text z Hz _. by exists z. }
  split; [|split].
  - apply (proj1 (convert_values_outcome example_interpreter table_info
                    ["Al"; " 7 "; "Rome"; "true"])); [simpl; lia|].
    repeat constructor; auto. by apply (Hint _ 7).
  - apply (proj1 (proj2 (convert_values_outcome example_interpreter table_info
             ["Al"; "seven"; "Rome"; "true"])) 1%nat ("Age", PyInt) "seven");
      [done | done | | repeat constructor; auto].
    intros Hc. destruct (Hc eq_refl) as [z Hz]. discriminate Hz.
  - apply (proj2 (proj2 (convert_values_outcome example_interpreter table_info
                           ["Al"; "7"]))); [simpl; lia|].
    repeat constructor; auto. by apply (Hint _ 7).
Defined.

(** ** The mutations of the access layer *)

Section mutations.
Context (py : Interpreter).
Implicit Types (db : Database) (t : DynamicTable).

Lemma set_table_same db table_name t :
  tables db !! table_name = Some t → set_table db table_name t = db.
Proof. intros Hlook. unfold set_table. rewrite insert_id; [|done]. by destruct db. Qed.

Lemma convert_values_error (cols : list (string * pyclass)) (values : list string) e :
  convert_values py cols values = inl e →
  (∃ m, e = ValueError m) ∨ e = IndexError ListIndexOutOfRange.
Proof.
  revert values. induction cols as [|[c ty] cols IH]; intros values; [done|].
  destruct values as [|text texts]; [intros [= <-]; by right|].
  rewrite convert_values_cons.
  destruct (convert_value py ty text) as [e'|v] eqn:Hv.
  - intros [= <-]. apply convert_value_inl in Hv as (_ & m & -> & _). eauto.
  - destruct (convert_values py cols texts) as [e'|vs] eqn:Hrec; [|done].
    intros [= <-]. by eapply IH.
Qed.

Lemma convert_values_convertible (cols : list (string * pyclass)) (values : list string)
    converted :
  convert_values py cols values = inr converted →
  Forall2 (convertible py) cols (take (length cols) values).
Proof.
  revert values converted. induction cols as [|[c ty] cols IH]; intros values converted;
    [constructor|].
  destruct values as [|text texts]; [done|].
  rewrite convert_values_cons.
  destruct (convert_value py ty text) as [e|v] eqn:Hv; [done|].
  destruct (convert_values py cols texts) as [e|vs] eqn:Hrec; [done|].
  intros _. simpl. constructor; [|by eapply IH].
  apply convert_value_inr. simpl. eauto.
Qed.

(** The four row operations never touch the schema. *)
Lemma row_op_keeps_schema op t :
  (∀ n ty, op ≠ AddColumn n ty) → (∀ n, op ≠ RemoveColumn n) →
  column_info (apply_op op t).2 = column_info t.
Proof.
  intros Hadd Hdel. destruct op as [n ty|n|vs|i vs|i|]; simpl.
  - by destruct (Hadd n ty).
  - by destruct (Hdel n).
  - unfold add_row. case_bool_decide; [done|]. by destruct (validate _ _ _).
  - unfold update_row. destruct (_ || _); [done|]. case_bool_decide; [done|].
    destruct (validate _ _ _); [done|]. by destruct (list_setitem _ _ _).
  - unfold delete_row. by destruct (list_delitem _ _).
  - unfold remove_duplicates. by destruct (dedup_loop _ _ _ _).
Qed.

Lemma row_op_keeps_rows_match op t :
  (∀ n ty, op ≠ AddColumn n ty) → (∀ n, op ≠ RemoveColumn n) →
  row_keys_match t → row_keys_match (apply_op op t).2.
Proof.
  intros Hadd Hdel Hinv. destruct op as [n ty|n|vs|i vs|i|]; simpl.
  - by destruct (Hadd n ty).
  - by destruct (Hdel n).
  - pose proof (add_row_ok t vs Hinv) as H.
    destruct (add_row t vs) as [[|e] t']; simpl; [by destruct H | by destruct H as [-> _]].
  - pose proof (update_row_ok t i vs Hinv) as H.
    destruct (update_row t i vs) as [[|e] t']; simpl;
      [by destruct H | by destruct H as [-> _]].
  - pose proof (delete_row_ok t i Hinv) as H.
    destruct (delete_row t i) as [[|e] t']; simpl;
      [by destruct H | by destruct H as [-> _]].
  - destruct (remove_duplicates_ok t Hinv) as (u & -> & Hsub). simpl.
    unfold row_keys_match, column_names in *. simpl. by eapply Forall_sublist_of.
Qed.
End mutations.

(** X18. [AddRowMutation] on an existing table whose column types are
    among [str], [int] and [bool] answers success exactly when there are
    at least as many texts as columns and each of the first texts is
    convertible for its column, that is, [int] returns on the text of
    every [int] column; texts beyond the number of columns are dropped
    without an error.  On success the table has one more row, at the end,
    the dict of the column names zipped with the converted values, and
    [resolve_table] shows the rows so extended. *)
Theorem AddRowMutation_succeeds_iff (py : Interpreter) (db : Database) (table_name : string)
    (t : DynamicTable) (values : list string) :
  tables db !! table_name = Some t →
  Forall (λ col : string * pyclass, basic_class col.2 = true) (column_info t) →
  ((AddRowMutation_mutate py db table_name values).1 = inr true
   ↔ (length (column_info t) ≤ length values)%nat
     ∧ Forall2 (convertible py) (column_info t) (take (length (column_info t)) values))
  ∧ ∀ converted,
      convert_values py (column_info t) values = inr converted →
      let t' := {| column_info := column_info t;
                   rows := rows t ++ [dict_zip (column_names t) converted] |} in
      AddRowMutation_mutate py db table_name values = (inr true, set_table db table_name t')
      ∧ resolve_table (set_table db table_name t') table_name
        = Some {| td_table_name := table_name;
                  td_column_info := (λ col, (col.1, class_name col.2)) <$> column_info t;
                  td_rows := rows t ++ [dict_zip (column_names t) converted] |}.
Proof.
  intros Hlook Hbasic.
  assert (∀ converted, convert_values py (column_info t) values = inr converted →
            add_row t converted
            = (Returned, {| column_info := column_info t;
                            rows := rows t ++ [dict_zip (column_names t) converted] |}))
    as Hadd.
  { intros converted Hconv. apply add_row_passes.
    destruct (convert_values_inr _ _ _ _ Hconv) as (_ & Hall & _).
    apply Forall2_same_length_lookup_2; [by eapply Forall2_length|].
    intros i col v Hcol Hv.
    destruct (Forall2_lookup_lr _ _ _ _ _ _ Hall Hcol Hv) as [_ ->].
    by apply (Forall_lookup_1 _ _ _ _ Hbasic Hcol). }
  split.
  - unfold AddRowMutation_mutate. rewrite Hlook.
    destruct (convert_values py (column_info t) values) as [e|converted] eqn:Hconv.
    + split.
      * intros Hans. simpl in Hans.
        by destruct (convert_values_error _ _ _ _ Hconv) as [[m ->]| ->].
      * intros [Hlen Hall].
        destruct (proj1 (convert_values_cases py (column_info t) values) Hlen Hall)
          as [converted Hok]. congruence.
    + rewrite (Hadd _ eq_refl). simpl. split; [intros _|done].
      split; [by destruct (convert_values_inr _ _ _ _ Hconv)
             | by eapply convert_values_convertible].
  - intros converted Hconv t'. split.
    + unfold AddRowMutation_mutate. by rewrite Hlook, Hconv, (Hadd _ Hconv).
    + unfold resolve_table, set_table. simpl. by rewrite lookup_insert_eq.
Qed.

Lemma AddRowMutation_succeeds_iff_witness :
  let db := {| tables := {["Table1" := table]} |} in
  (AddRowMutation_mutate example_interpreter db "Table1"
     ["Dan"; "31"; "Oslo"; "TRUE"; "surplus"]).1 = inr true.
Proof.
  intros db.
  apply (proj1 (AddRowMutation_succeeds_iff example_interpreter db "Table1" table
                  ["Dan"; "31"; "Oslo"; "TRUE"; "surplus"] eq_refl
                  ltac:(repeat constructor))).
  split; [simpl; lia|].
  repeat constructor; try (by intros ?).
  intros _. by exists 31.
Defined.

(** X19. With fewer texts than columns, [int] returning on each text of
    an [int] column, [AddRowMutation] does not answer: the [IndexError] of
    [convert_values] is not among the exceptions it catches and escapes,
    the database unchanged; [UpdateRowMutation] on the same texts catches
    it and answers failure, at every index. *)
Theorem too_few_values (py : Interpreter) (db : Database) (table_name : string) (t : DynamicTable)
    (values : list string) (row_index : Z) :
  tables db !! table_name = Some t →
  (length values < length (column_info t))%nat →
  Forall2 (convertible py) (take (length values) (column_info t)) values →
  AddRowMutation_mutate py db table_name values
  = (inl (IndexError ListIndexOutOfRange), db)
  ∧ UpdateRowMutation_mutate py db table_name row_index values = (inr false, db).
Proof.
  intros Hlook Hlen Hall.
  pose proof (proj2 (proj2 (convert_values_cases py (column_info t) values)) Hlen Hall)
    as Hconv.
  unfold AddRowMutation_mutate, UpdateRowMutation_mutate. by rewrite Hlook, Hconv.
Qed.

Lemma too_few_values_witness :
  let db := {| tables := {["Table1" := table]} |} in
  AddRowMutation_mutate example_interpreter db "Table1" ["Dan"; "31"]
  = (inl (IndexError ListIndexOutOfRange), db)
  ∧ UpdateRowMutation_mutate example_interpreter db "Table1" 0 ["Dan"; "31"]
    = (inr false, db).
Proof.
  intros db.
  apply (too_few_values example_interpreter db "Table1" table ["Dan"; "31"] 0 eq_refl).
  - simpl. lia.
  - repeat constructor; try (by intros ?).
    intros _. by exists 31.
Defined.

(** X20. The mutations change the database only when they answer
    success: whenever [AddRowMutation], [UpdateRowMutation],
    [DeleteRowMutation], [RemoveDuplicatesMutation] or
    [RemoveTableMutation] answers failure or lets an exception escape, the
    database is exactly as it was, for every database and every
    argument. *)
Theorem mutations_change_only_on_success (py : Interpreter) (db : Database) (table_name : string)
    (row_index : Z) (values : list string) :
  ((AddRowMutation_mutate py db table_name values).1 ≠ inr true →
     (AddRowMutation_mutate py db table_name values).2 = db)
  ∧ ((UpdateRowMutation_mutate py db table_name row_index values).1 ≠ inr true →
     (UpdateRowMutation_mutate py db table_name row_index values).2 = db)
  ∧ ((DeleteRowMutation_mutate db table_name row_index).1 ≠ inr true →
     (DeleteRowMutation_mutate db table_name row_index).2 = db)
  ∧ ((RemoveDuplicatesMutation_mutate db table_name).1 ≠ inr true →
     (RemoveDuplicatesMutation_mutate db table_name).2 = db)
  ∧ ((RemoveTableMutation_mutate db table_name).1 ≠ inr true →
     (RemoveTableMutation_mutate db table_name).2 = db).
Proof.
  assert (∀ op t (f : outcome → exn + bool),
            (∀ n, op ≠ RemoveColumn n) → f Returned = inr true →
            tables db !! table_name = Some t →
            (let '(o, t') := apply_op op t in (f o, set_table db table_name t')).1
              ≠ inr true →
            (let '(o, t') := apply_op op t in (f o, set_table db table_name t')).2 = db)
    as Hop.
  { intros op t f Hnot Hf Hlook.
    destruct (apply_op op t) as [[|e] t'] eqn:Happ; simpl; [congruence|].
    intros _. rewrite (table_op_unchanged_on_raise _ _ _ _ Hnot Happ).
    by apply set_table_same. }
  repeat split.
  - unfold AddRowMutation_mutate.
    destruct (tables db !! table_name) as [t|] eqn:Hlook; [|done].
    destruct (convert_values _ _) as [e|converted]; [done|].
    by apply (Hop (AddRow converted) t catch_ValueError).
  - unfold UpdateRowMutation_mutate.
    destruct (tables db !! table_name) as [t|] eqn:Hlook; [|done].
    destruct (convert_values _ _) as [e|converted]; [done|].
    by apply (Hop (UpdateRow row_index converted) t catch_ValueError_IndexError).
  - unfold DeleteRowMutation_mutate.
    destruct (tables db !! table_name) as [t|] eqn:Hlook; [|done].
    by apply (Hop (DeleteRow row_index) t catch_IndexError).
  - unfold RemoveDuplicatesMutation_mutate.
    destruct (tables db !! table_name) as [t|] eqn:Hlook; [|done].
    by apply (Hop RemoveDuplicates t catch_ValueError).
  - unfold RemoveTableMutation_mutate, remove_table.
    by destruct (tables db !! table_name).
Qed.

(** X21. [UpdateRowMutation] with an index below zero or at or past the
    row count of the table answers failure and leaves the database as it
    was, whatever the texts are; so it does with the name of no table.
    Index [-1] is refused, where [DeleteRowMutation] deletes the last
    row. *)
Theorem UpdateRowMutation_out_of_range (py : Interpreter) (db : Database) (table_name : string)
    (row_index : Z) (values : list string) :
  (∀ t, tables db !! table_name = Some t →
        row_index < 0 ∨ Z.of_nat (length (rows t)) ≤ row_index) →
  UpdateRowMutation_mutate py db table_name row_index values = (inr false, db).
Proof.
  intros Hrange. unfold UpdateRowMutation_mutate.
  destruct (tables db !! table_name) as [t|] eqn:Hlook; [|done].
  destruct (convert_values _ _) as [e|converted] eqn:Hconv.
  - by destruct (convert_values_error _ _ _ _ Hconv) as [[m ->]| ->].
  - unfold update_row.
    destruct (bool_decide (row_index < 0) || _) eqn:Hcheck.
    + simpl. by rewrite set_table_same.
    + apply orb_false_iff in Hcheck as [?%bool_decide_eq_false ?%bool_decide_eq_false].
      destruct (Hrange t eq_refl); lia.
Qed.

Lemma UpdateRowMutation_out_of_range_witness :
  let db := {| tables := {["Table1" := table]} |} in
  UpdateRowMutation_mutate example_interpreter db "Table1" (-1)
    ["Dan"; "31"; "Oslo"; "true"] = (inr false, db).
Proof.
  intros db. apply (UpdateRowMutation_out_of_range example_interpreter db "Table1" (-1)).
  intros t Ht. left. lia.
Defined.

(** X22. [DeleteRowMutation] on an existing table never lets an exception
    escape, and answers success exactly when the index is at least minus
    the row count and below the row count. *)
Theorem DeleteRowMutation_answer (db : Database) (table_name : string)
    (t : DynamicTable) (row_index : Z) :
  tables db !! table_name = Some t →
  let n := Z.of_nat (length (rows t)) in
  (DeleteRowMutation_mutate db table_name row_index).1
  = inr (bool_decide (- n ≤ row_index < n)).
Proof.
  intros Hlook n. unfold DeleteRowMutation_mutate. rewrite Hlook.
  unfold delete_row, list_delitem, py_index. fold n.
  case_bool_decide as H0; simpl.
  - by rewrite bool_decide_eq_true_2; [|lia].
  - case_bool_decide as H1; simpl.
    + by rewrite bool_decide_eq_true_2; [|lia].
    + by rewrite bool_decide_eq_false_2; [|lia].
Qed.

Lemma DeleteRowMutation_answer_witness :
  let db := {| tables := {["Table1" := table]} |} in
  (DeleteRowMutation_mutate db "Table1" (-4)).1
  = inr (bool_decide (- Z.of_nat (length (rows table)) ≤ -4 < Z.of_nat (length (rows table)))).
Proof.
  intros db. apply (DeleteRowMutation_answer db "Table1" table (-4)). reflexivity.
Defined.

(** X23. The mutations keep the row invariant of the store: if every
    table of the database has rows whose keys match its schema, so has
    every table of the database that [AddRowMutation],
    [UpdateRowMutation], [DeleteRowMutation], [RemoveDuplicatesMutation]
    or [RemoveTableMutation] leaves, whatever it answered. *)
Theorem mutations_keep_store_invariant (py : Interpreter) (db : Database) (table_name : string)
    (row_index : Z) (values : list string) :
  store_rows_match db →
  store_rows_match (AddRowMutation_mutate py db table_name values).2
  ∧ store_rows_match (UpdateRowMutation_mutate py db table_name row_index values).2
  ∧ store_rows_match (DeleteRowMutation_mutate db table_name row_index).2
  ∧ store_rows_match (RemoveDuplicatesMutation_mutate db table_name).2
  ∧ store_rows_match (RemoveTableMutation_mutate db table_name).2.
Proof.
  intros Hdb.
  assert (∀ op t (f : outcome → exn + bool),
            (∀ n ty, op ≠ AddColumn n ty) → (∀ n, op ≠ RemoveColumn n) →
            tables db !! table_name = Some t →
            store_rows_match
              (let '(o, t') := apply_op op t in (f o, set_table db table_name t')).2)
    as Hop.
  { intros op t f Hadd Hdel Hlook.
    pose proof (row_op_keeps_rows_match op t Hadd Hdel (Hdb _ _ Hlook)) as Hinv.
    destruct (apply_op op t) as [o t']. simpl in *.
    unfold store_rows_match, set_table. simpl. by apply map_Forall_insert_2. }
  repeat split.
  - unfold AddRowMutation_mutate.
    destruct (tables db !! table_name) as [t|] eqn:Hlook; [|done].
    destruct (convert_values _ _) as [e|converted]; [done|].
    by apply (Hop (AddRow converted) t catch_ValueError).
  - unfold UpdateRowMutation_mutate.
    destruct (tables db !! table_name) as [t|] eqn:Hlook; [|done].
    destruct (convert_values _ _) as [e|converted]; [done|].
    by apply (Hop (UpdateRow row_index converted) t catch_ValueError_IndexError).
  - unfold DeleteRowMutation_mutate.
    destruct (tables db !! table_name) as [t|] eqn:Hlook; [|done].
    by apply (Hop (DeleteRow row_index) t catch_IndexError).
  - unfold RemoveDuplicatesMutation_mutate.
    destruct (tables db !! table_name) as [t|] eqn:Hlook; [|done].
    by apply (Hop RemoveDuplicates t catch_ValueError).
  - unfold RemoveTableMutation_mutate, remove_table.
    destruct (tables db !! table_name) as [t|] eqn:Hlook; [|done]. simpl.
    by apply map_Forall_delete.
Qed.

Lemma mutations_keep_store_invariant_witness :
  let db := {| tables := {["Table1" := table]} |} in
  store_rows_match
    (AddRowMutation_mutate example_interpreter db "Table1" ["Dan"; "31"; "Oslo"; "no"]).2
  ∧ store_rows_match
      (UpdateRowMutation_mutate example_interpreter db "Table1" 1
         ["Dan"; "31"; "Oslo"; "no"]).2
  ∧ store_rows_match (DeleteRowMutation_mutate db "Table1" 1).2
  ∧ store_rows_match (RemoveDuplicatesMutation_mutate db "Table1").2
  ∧ store_rows_match (RemoveTableMutation_mutate db "Table1").2.
Proof.
  intros db. apply (mutations_keep_store_invariant example_interpreter db "Table1" 1).
  apply map_Forall_singleton.
  unfold row_keys_match. apply (bool_decide_unpack _). vm_compute. exact I.
Defined.

(** X24. The four row mutations touch nothing but the rows of the table
    they name: whatever they answer, every other table of the database is
    as it was, no table appears or disappears, and the schema of the named
    table is unchanged. *)
Theorem row_mutations_frame (py : Interpreter) (db : Database) (table_name : string)
    (row_index : Z) (values : list string) :
  only_rows_of table_name db (AddRowMutation_mutate py db table_name values).2
  ∧ only_rows_of table_name db (UpdateRowMutation_mutate py db table_name row_index values).2
  ∧ only_rows_of table_name db (DeleteRowMutation_mutate db table_name row_index).2
  ∧ only_rows_of table_name db (RemoveDuplicatesMutation_mutate db table_name).2.
Proof.
  assert (only_rows_of table_name db db) as Hrefl by done.
  assert (∀ op t (f : outcome → exn + bool),
            (∀ n ty, op ≠ AddColumn n ty) → (∀ n, op ≠ RemoveColumn n) →
            tables db !! table_name = Some t →
            only_rows_of table_name db
              (let '(o, t') := apply_op op t in (f o, set_table db table_name t')).2)
    as Hop.
  { intros op t f Hadd Hdel Hlook.
    pose proof (row_op_keeps_schema op t Hadd Hdel) as Hci.
    destruct (apply_op op t) as [o t']. simpl in *. split; simpl.
    - intros other Hne. by apply lookup_insert_ne.
    - rewrite lookup_insert_eq, Hlook. simpl. by rewrite Hci. }
  split; [|split; [|split]].
  - unfold AddRowMutation_mutate.
    destruct (tables db !! table_name) as [t|] eqn:Hlook; [|done].
    destruct (convert_values _ _) as [e|converted]; [done|].
    by apply (Hop (AddRow converted) t catch_ValueError).
  - unfold UpdateRowMutation_mutate.
    destruct (tables db !! table_name) as [t|] eqn:Hlook; [|done].
    destruct (convert_values _ _) as [e|converted]; [done|].
    by apply (Hop (UpdateRow row_index converted) t catch_ValueError_IndexError).
  - unfold DeleteRowMutation_mutate.
    destruct (tables db !! table_name) as [t|] eqn:Hlook; [|done].
    by apply (Hop (DeleteRow row_index) t catch_IndexError).
  - unfold RemoveDuplicatesMutation_mutate.
    destruct (tables db !! table_name) as [t|] eqn:Hlook; [|done].
    by apply (Hop RemoveDuplicates t catch_ValueError).
Qed.

(** X25. [RemoveDuplicatesMutation] is idempotent on a database whose
    tables have rows matching their schemas: called again on the database
    it left, it gives the same answer and leaves the same database. *)
Theorem RemoveDuplicatesMutation_idempotent (db : Database) (table_name : string) :
  store_rows_match db →
  RemoveDuplicatesMutation_mutate
    (RemoveDuplicatesMutation_mutate db table_name).2 table_name
  = RemoveDuplicatesMutation_mutate db table_name.
Proof.
  intros Hdb. unfold RemoveDuplicatesMutation_mutate at 2 3.
  destruct (tables db !! table_name) as [t|] eqn:Hlook; simpl.
  - assert (Forall (λ row : gmap string value,
              Forall (λ col : string * pyclass, is_Some (row !! col.1)) (column_info t))
              (rows t)) as Hall.
    { eapply Forall_impl; [exact (Hdb _ _ Hlook)|]. intros row. apply row_has_columns. }
    assert (∀ rws, Forall (λ row : gmap string value,
              Forall (λ col : string * pyclass, is_Some (row !! col.1)) (column_info t)) rws →
            remove_duplicates {| column_info := column_info t; rows := rws |}
            = (Returned, {| column_info := column_info t;
                            rows := first_occurrences (column_info t) [] rws |})) as Hrun.
    { intros rws Hrws. unfold remove_duplicates. simpl.
      by rewrite (dedup_loop_first_occurrences _ rws [] [] []). }
    replace (remove_duplicates t)
      with (remove_duplicates {| column_info := column_info t; rows := rows t |})
      by by destruct t.
    rewrite (Hrun _ Hall). simpl.
    unfold RemoveDuplicatesMutation_mutate, set_table. simpl.
    rewrite lookup_insert_eq, Hrun.
    + rewrite first_occurrences_idempotent. simpl. by rewrite insert_insert_eq.
    + eapply Forall_sublist_of; [apply first_occurrences_sublist | exact Hall].
  - unfold RemoveDuplicatesMutation_mutate. by rewrite Hlook.
Qed.

Lemma RemoveDuplicatesMutation_idempotent_witness :
  let db := {| tables := {["Table1" := table]} |} in
  RemoveDuplicatesMutation_mutate (RemoveDuplicatesMutation_mutate db "Table1").2 "Table1"
  = RemoveDuplicatesMutation_mutate db "Table1".
Proof.
  intros db. apply (RemoveDuplicatesMutation_idempotent db "Table1").
  apply map_Forall_singleton.
  unfold row_keys_match. apply (bool_decide_unpack _). vm_compute. exact I.
Defined.

(** ** [Query.resolve_table] *)

Lemma class_name_inj c1 c2 : class_name c1 = class_name c2 → c1 = c2.
Proof. by destruct c1, c2. Qed.

Lemma resolved_schema_inj (cols1 cols2 : list (string * pyclass)) :
  (λ col : string * pyclass, (col.1, class_name col.2)) <$> cols1
  = (λ col : string * pyclass, (col.1, class_name col.2)) <$> cols2 →
  cols1 = cols2.
Proof.
  revert cols2. induction cols1 as [|[c1 ty1] cols1 IH]; intros [|[c2 ty2] cols2];
    simpl; try done.
  intros [= -> Hty Hrest]. apply class_name_inj in Hty as ->. by rewrite (IH _ Hrest).
Qed.

(** X26. [resolve_table] answers [None] exactly for a name the database
    does not have, and otherwise shows the whole table: two databases give
    the same answer for a name if and only if they bind it to the same
    table, same schema and same rows in the same order, or both do not
    bind it. *)
Theorem resolve_table_faithful (db db' : Database) (table_name : string) :
  (resolve_table db table_name = None ↔ tables db !! table_name = None)
  ∧ (resolve_table db table_name = resolve_table db' table_name
     ↔ tables db !! table_name = tables db' !! table_name).
Proof.
  unfold resolve_table. split.
  - by destruct (tables db !! table_name).
  - split; [|by intros ->].
    destruct (tables db !! table_name) as [[cols rws]|],
             (tables db' !! table_name) as [[cols' rws']|]; simpl; try done.
    intros [= Hcols ->]. by apply resolved_schema_inj in Hcols as ->.
Qed.

(** ** What [display_table] prints, [convert_values] reads back *)

Section display.
Implicit Types (n d a : Z) (ds acc : list ascii).

Lemma digit_of_digit_char d : 0 ≤ d < 10 → digit_of (digit_char d) = Some d.
Proof.
  intros Hd.
  assert (d = 0 ∨ d = 1 ∨ d = 2 ∨ d = 3 ∨ d = 4 ∨ d = 5 ∨ d = 6 ∨ d = 7 ∨ d = 8 ∨ d = 9)
    as Hcases by lia.
  by repeat (destruct Hcases as [->|Hcases]); [..|subst].
Qed.

(** With enough fuel the digits are a non-empty digit string whose base-10
    value, continued from any value read so far, ends in [n]. *)
Lemma decimal_digits_value fuel n acc :
  0 ≤ n < 10 ^ Z.of_nat (S fuel) →
  ∃ ds, decimal_digits (S fuel) n acc = ds ++ acc
        ∧ ds ≠ []
        ∧ Forall (λ c, is_Some (digit_of c)) ds
        ∧ ∀ a, foldl decimal_step a ds = a * 10 ^ Z.of_nat (length ds) + n.
Proof.
  assert (∀ n acc, 0 ≤ n < 10 →
            ∃ ds, digit_char n :: acc = ds ++ acc ∧ ds ≠ []
                  ∧ Forall (λ c, is_Some (digit_of c)) ds
                  ∧ ∀ a, foldl decimal_step a ds = a * 10 ^ Z.of_nat (length ds) + n)
    as Hone.
  { intros m acc' Hm. exists [digit_char m]. split; [done|]. split; [done|]. split.
    - repeat constructor. rewrite digit_of_digit_char; [by eexists | done].
    - intros a. simpl. unfold decimal_step. rewrite digit_of_digit_char; [|done].
      simpl. lia. }
  revert n acc. induction fuel as [|fuel IH]; intros n acc Hn.
  - change (10 ^ Z.of_nat 1) with 10 in Hn. simpl.
    rewrite (proj2 (Z.ltb_lt n 10)); [|lia]. by apply Hone.
  - remember (S fuel) as fuel' eqn:Hfuel. simpl decimal_digits.
    destruct (n <? 10) eqn:Hsmall.
    + apply Z.ltb_lt in Hsmall. apply Hone. lia.
    + apply Z.ltb_ge in Hsmall.
      assert (0 ≤ n `mod` 10 < 10) as Hmod by (apply Z.mod_pos_bound; lia).
      assert (n = 10 * (n / 10) + n `mod` 10) as Hdiv by (apply Z.div_mod; lia).
      destruct (IH (n / 10) (digit_char (n `mod` 10) :: acc))
        as (ds & -> & Hne & Hds & Hval).
      { split; [apply Z.div_pos; lia|].
        apply Z.div_lt_upper_bound; [lia|].
        rewrite Nat2Z.inj_succ, Z.pow_succ_r in Hn; lia. }
      exists (ds ++ [digit_char (n `mod` 10)]).
      split; [by rewrite <- app_assoc|]. split; [by destruct ds|]. split.
      * apply Forall_app. split; [done|]. repeat constructor.
        rewrite digit_of_digit_char; [by eexists | done].
      * intros a. rewrite foldl_app, Hval. simpl. unfold decimal_step.
        rewrite digit_of_digit_char; [|done]. simpl.
        rewrite length_app, Nat2Z.inj_add, Z.pow_add_r; [|lia..]. simpl length.
        change (Z.of_nat 1) with 1. rewrite Z.pow_1_r. lia.
Qed.
End display.

Lemma digit_is_ascii a : is_Some (digit_of a) → (nat_of_ascii a <? 128)%nat = true.
Proof. intros [d Hd]. revert Hd. ascii_cases a. Qed.

(** When [str] returns on an integer, the text is ASCII and [int] returns
    the integer on it. *)
Lemma py_int_py_str_int (py : Interpreter) (n : Z) text :
  py_str_int py n = inr text → py_int py text = inr n.
Proof.
  unfold py_str_int. set (m := Z.abs n).
  assert (0 ≤ m < 10 ^ Z.of_nat (S (Z.to_nat (Z.log2 m)))) as Hfuel.
  { split; [lia|]. rewrite Nat2Z.inj_succ, Z2Nat.id; [|apply Z.log2_nonneg].
    destruct (decide (m = 0)) as [->|Hpos]; [done|].
    destruct (Z.log2_spec m) as [_ Hlt]; [lia|].
    eapply Z.lt_le_trans; [exact Hlt|].
    apply Z.pow_le_mono_l. lia. }
  destruct (decimal_digits_value _ m [] Hfuel) as (ds & Hds & Hne & Hdigits & Hval).
  rewrite app_nil_r in Hds. rewrite Hds.
  destruct (exceeds_limit py (length ds)) eqn:Hlimit; [done|]. intros [= <-].
  set (sgn := if n <? 0 then Minus else NoSign).
  assert (String.list_ascii_of_string
            (String.string_of_list_ascii (if n <? 0 then "-"%char :: ds else ds))
          = [] ++ sign_text sgn ++ ds ++ more_groups [] ++ []) as Htext.
  { rewrite String.list_ascii_of_string_of_list_ascii. unfold more_groups, sgn. simpl.
    rewrite !app_nil_r. by destruct (n <? 0). }
  apply py_int_ascii.
  - unfold is_ascii_text. rewrite Htext. simpl. rewrite !app_nil_r.
    apply forallb_forall. intros a [Ha|Ha]%in_app_or.
    + unfold sgn in Ha. destruct (n <? 0); [|done]. by destruct Ha as [<-|[]].
    + apply digit_is_ascii. rewrite Forall_forall in Hdigits. apply Hdigits.
      by apply list_elem_of_In.
  - rewrite (literal_digit_chars _ _ _ _ _ _ Htext); [|done..]. simpl.
    rewrite app_nil_r. split; [|done].
    exists [], sgn, ds, [], [].
    split; [done|]. split; [constructor|]. split; [constructor|]. split; [done|].
    split; [constructor|].
    simpl. rewrite app_nil_r. unfold decimal_value. rewrite Hval. unfold sgn.
    destruct (n <? 0) eqn:Hneg; simpl;
      [apply Z.ltb_lt in Hneg | apply Z.ltb_ge in Hneg]; lia.
Qed.

Lemma convert_value_py_str (py : Interpreter) ty v text :
  basic_class ty = true → type_of v = ty → py_str py v = inr text →
  convert_value py ty text = inr v.
Proof.
  intros Hbasic <-. destruct v as [s|n|[]|]; simpl; try done; try (by intros [= <-]).
  intros Hstr. by rewrite (py_int_py_str_int py n text Hstr).
Qed.

Lemma cells_convert_back (py : Interpreter) (cols : list (string * pyclass))
    (row : gmap string value) (texts : list string) :
  Forall (λ col : string * pyclass,
            ∃ v, row !! col.1 = Some v ∧ type_of v = col.2 ∧ basic_class col.2 = true)
         cols →
  cells py row cols = inr texts →
  convert_values py cols texts = key_values cols row
  ∧ ∃ vs, key_values cols row = inr vs.
Proof.
  intros Hall. revert texts.
  induction Hall as [|[c ty] cols (v & Hv & Hty & Hbasic) _ IH]; intros texts.
  - intros [= <-]. split; [done | by eexists].
  - simpl in *. unfold cell. simpl. rewrite Hv.
    destruct (py_str py v) as [m|text] eqn:Hstr; [done|].
    destruct (cells py row cols) as [e|rest] eqn:Hrest; [done|].
    intros [= <-]. destruct (IH rest eq_refl) as [Hconv [vs Hvs]].
    rewrite convert_values_cons, (convert_value_py_str py ty v text Hbasic Hty Hstr).
    rewrite Hconv, Hvs. split; [done | by eexists].
Qed.

Lemma display_rows_line (py : Interpreter) (cols : list (string * pyclass))
    (rws : list (gmap string value)) lines j row :
  display_rows py cols rws = (lines, None) → rws !! j = Some row →
  ∃ texts, cells py row cols = inr texts ∧ lines !! j = Some (py_join "|" texts).
Proof.
  revert lines j. induction rws as [|r rest IH]; intros lines j; [done|]. simpl.
  destruct (cells py r cols) as [e|texts] eqn:Hcells; [done|].
  destruct (display_rows py cols rest) as [lines' e] eqn:Hrest.
  intros [= <- ->]. destruct j as [|j]; simpl.
  - intros [= <-]. eauto.
  - by apply IH.
Qed.

(** X27. What [display_table] prints for a row, [convert_values] reads
    back.  When [display_table] returns -- no integer it has to print has
    more digits than the interpreter's limit allows -- the line it prints
    for the row at position [j], two lines below the header, is the
    texts of the row's cells joined by bars; and when the row holds, for
    every column, a value of exactly the column's class, the column types
    being among [str], [int] and [bool], converting those texts gives the
    tuple of the row's values in schema order. *)
Theorem display_row_converts_back (py : Interpreter) (t : DynamicTable) (j : nat)
    (row : gmap string value) :
  (display_table py t).2 = None →
  rows t !! j = Some row →
  ∃ texts,
    cells py row (column_info t) = inr texts
    ∧ (display_table py t).1 !! (2 + j)%nat = Some (py_join "|" texts)
    ∧ (Forall (λ col : string * pyclass,
                 ∃ v, row !! col.1 = Some v ∧ type_of v = col.2
                      ∧ basic_class col.2 = true)
              (column_info t) →
       convert_values py (column_info t) texts = key_values (column_info t) row
       ∧ ∃ vs, key_values (column_info t) row = inr vs).
Proof.
  unfold display_table.
  destruct (display_rows py (column_info t) (rows t)) as [lines e] eqn:Hrows.
  simpl. intros -> Hrow.
  destruct (display_rows_line _ _ _ _ _ _ Hrows Hrow) as (texts & Hcells & Hline).
  exists texts. split; [done|]. split; [done|].
  intros Hall. by apply cells_convert_back.
Qed.

Lemma display_row_converts_back_witness :
  ∃ row, rows table !! 1%nat = Some row
         ∧ (display_table example_interpreter table).1 !! 3%nat
           = Some "Bob|30|San Francisco|True"
         ∧ convert_values example_interpreter table_info
             ["Bob"; "30"; "San Francisco"; "True"]
           = key_values table_info row.
Proof.
  eexists. split; [reflexivity|].
  destruct (display_row_converts_back example_interpreter table 1 _ eq_refl eq_refl)
    as (texts & Hcells & Hline & Hconv).
  injection Hcells as <-. split; [exact Hline|]. apply Hconv.
  repeat constructor; eexists; (split; [reflexivity|]); split; reflexivity.
Defined.

(** ** A schema that names a column twice *)

(** [DynamicTable.__init__] stores the schema it is given and
    [Database.add_table] passes it on; neither looks for a name that occurs
    twice, which [add_column] does.  The row stored by [add_row] for such a
    schema has the name once, as the key of the value given last. *)
Lemma dict_zip_twice (c : string) (v1 v2 : value) :
  dict_zip [c; c] [v1; v2] = {[c := v2]}.
Proof.
  unfold dict_zip. simpl. by rewrite insert_insert_eq, insert_empty.
Qed.

Lemma row_keys_match_twice (c : string) (v : value) :
  row_keys_match {| column_info := [(c, PyInt); (c, PyInt)]; rows := [{[c := v]}] |}.
Proof.
  unfold row_keys_match, column_names. simpl. constructor; [|constructor].
  rewrite dom_singleton_L. set_solver.
Qed.

Lemma not_row_keys_match_empty_row (c : string) (ty : pyclass) :
  ¬ row_keys_match {| column_info := [(c, ty)]; rows := [∅] |}.
Proof.
  unfold row_keys_match, column_names. simpl. intros [Hdom _]%Forall_cons.
  rewrite dom_empty_L in Hdom. set_solver.
Qed.

Lemma delete_column_twice (c : string) (v : value) :
  delete_column {| column_info := [(c, PyInt); (c, PyInt)]; rows := [{[c := v]}] |} c
  = (Returned, {| column_info := [(c, PyInt)]; rows := [∅] |}).
Proof.
  unfold delete_column, column_names. simpl.
  rewrite (bool_decide_eq_true_2 (c ∈ [c; c])); [|set_solver]. simpl.
  rewrite bool_decide_eq_true_2; [|done]. simpl.
  rewrite lookup_singleton_eq. simpl. by rewrite delete_singleton_eq.
Qed.

(** C1. Schema and row consistency fails for a schema that names a column
    twice, which the constructor accepts.  From the new table with the
    schema [(c, int), (c, int)], [add_row] with two integers returns and
    stores a row whose only key is [c]; [delete_column] of [c] then
    returns, having removed one entry of the schema and the key of the
    row: the table is left with the column [c] and a row without keys,
    whose key set is not the set of column names. *)
Theorem duplicate_column_breaks_consistency (c : string) (n1 n2 : Z) :
  run [AddRow [VInt n1; VInt n2]]
      (DynamicTable_init [(c, PyInt); (c, PyInt)])
  = {| column_info := [(c, PyInt); (c, PyInt)]; rows := [{[c := VInt n2]}] |}
  ∧ run [AddRow [VInt n1; VInt n2]; RemoveColumn c]
        (DynamicTable_init [(c, PyInt); (c, PyInt)])
    = {| column_info := [(c, PyInt)]; rows := [∅] |}
  ∧ ¬ row_keys_match
        (run [AddRow [VInt n1; VInt n2]; RemoveColumn c]
             (DynamicTable_init [(c, PyInt); (c, PyInt)])).
Proof.
  assert ((add_row (DynamicTable_init [(c, PyInt); (c, PyInt)]) [VInt n1; VInt n2]).2
          = {| column_info := [(c, PyInt); (c, PyInt)]; rows := [{[c := VInt n2]}] |})
    as Hadd.
  { unfold add_row, DynamicTable_init, column_names. simpl. by rewrite dict_zip_twice. }
  assert (run [AddRow [VInt n1; VInt n2]; RemoveColumn c]
              (DynamicTable_init [(c, PyInt); (c, PyInt)])
          = {| column_info := [(c, PyInt)]; rows := [∅] |}) as Hrun.
  { cbn [run apply_op]. rewrite Hadd. by rewrite delete_column_twice. }
  split; [exact Hadd|]. split; [exact Hrun|].
  rewrite Hrun. apply not_row_keys_match_empty_row.
Qed.

(** C3. [delete_column] returns and leaves a table that violates the row
    invariant, and then raises with the table changed.  [add_table]
    accepts the schema [(c, int), (c, int)]; on the table it registers,
    [add_row] with two integers returns and the row invariant holds;
    [delete_column] of [c] returns and the row invariant no longer holds;
    a second [delete_column] of [c] raises [KeyError], which is none of
    the specified errors, after it has removed the last entry of the
    schema. *)
Theorem delete_column_violates_all_or_nothing (table_name c : string) (n1 n2 : Z) :
  add_table Database_init table_name [(c, PyInt); (c, PyInt)]
  = (Returned,
     {| tables := {[table_name := DynamicTable_init [(c, PyInt); (c, PyInt)]]} |})
  ∧ apply_op (AddRow [VInt n1; VInt n2]) (DynamicTable_init [(c, PyInt); (c, PyInt)])
    = (Returned,
       {| column_info := [(c, PyInt); (c, PyInt)]; rows := [{[c := VInt n2]}] |})
  ∧ row_keys_match
      {| column_info := [(c, PyInt); (c, PyInt)]; rows := [{[c := VInt n2]}] |}
  ∧ apply_op (RemoveColumn c)
      {| column_info := [(c, PyInt); (c, PyInt)]; rows := [{[c := VInt n2]}] |}
    = (Returned, {| column_info := [(c, PyInt)]; rows := [∅] |})
  ∧ ¬ row_keys_match {| column_info := [(c, PyInt)]; rows := [∅] |}
  ∧ apply_op (RemoveColumn c) {| column_info := [(c, PyInt)]; rows := [∅] |}
    = (Raised (KeyError c), {| column_info := []; rows := [∅] |})
  ∧ ¬ specified_error (RemoveColumn c) (KeyError c).
Proof.
  split; [|split; [|split; [|split; [|split; [|split]]]]].
  - unfold add_table, Database_init. simpl. rewrite lookup_empty.
    by rewrite insert_empty.
  - unfold apply_op, add_row, DynamicTable_init, column_names. simpl.
    by rewrite dict_zip_twice.
  - apply row_keys_match_twice.
  - apply delete_column_twice.
  - apply not_row_keys_match_empty_row.
  - unfold apply_op, delete_column, column_names. simpl.
    rewrite (bool_decide_eq_true_2 (c ∈ [c])); [|set_solver]. simpl.
    rewrite bool_decide_eq_true_2; [|done]. simpl. by rewrite lookup_empty.
  - simpl. discriminate.
Qed.
